(** * Quiz leaderboard repositories over a Redis sorted set

    Embedding of [quizplay/quiz/repositories/leaderboard.py]
    ([LeaderBoardRepo]) and [quizplay/quiz/repositories/quizplay.py]
    ([QuizPlayRepo]).  Both classes are thin wrappers: every method builds
    the key [leaderboard:<quiz_id>] and issues one Redis sorted-set command
    (ZADD, ZSCORE, ZREVRANK, ZREVRANGE) through [self.redis].  The commands
    are embedded after the Redis command reference and [t_zset.c]:

    - a sorted set is a skip list of (member, score) pairs kept in ascending
      order of score, members of equal score in ascending byte order;
    - a score is an IEEE-754 double; redis-py sends a Python [int] as its
      decimal text and the server converts it with [strtod];
    - ZREVRANGE and ZREVRANK read that list backwards;
    - range indices are parsed as signed 64-bit integers, a text that does
      not fit is answered with an error, which redis-py raises.

    [helpers.util.ClientBase], from which both classes inherit, keeps the
    client it is given as [self.redis]; the database behind that client is
    the state threaded through every call below.  Keys under the
    [leaderboard:] prefix hold sorted sets only.

    A Python [str] is represented by its UTF-8 bytes (what redis-py sends
    and what [user.decode('utf-8')] reads back); byte order and code point
    order agree on UTF-8. *)

From Stdlib Require Import ZArith String Ascii List Lia.
From stdpp Require Import gmap strings list sorting.

(** ** Scores: integers stored as doubles *)

Module Double.

(** Nearest double to a natural number [a], ties to even, as an integer:
    below 2^53 every integer is a double; above, the 53 leading bits are
    kept and the rest is rounded. *)
Definition round_nat (a : Z) : Z :=
  if (a <? 2 ^ 53)%Z then a
  else
    let e := (Z.log2 a - 52)%Z in
    let q := Z.shiftr a e in
    let r := Z.land a (Z.ones e) in
    let half := (2 ^ (e - 1))%Z in
    let q' := if (half <? r)%Z || ((r =? half)%Z && Z.odd q)
              then (q + 1)%Z else q in
    Z.shiftl q' e.

(** [strtod] on the decimal text of [z]: [None] when the result leaves the
    range of finite doubles (the server then rejects the score). *)
Definition of_int (z : Z) : option Z :=
  let v := (Z.sgn z * round_nat (Z.abs z))%Z in
  if (Z.abs v <? 2 ^ 1024)%Z then Some v else None.

(** Python's [int(x)] of a double whose value is an integer. *)
Definition to_int (x : Z) : Z := x.

End Double.

(** ** The Redis store *)

(** One sorted set: the skip list, lowest entry first. *)
Abbreviation zset := (list (string * Z)).

(** Skip-list order: by score, then by member bytes. *)
Definition zslLt (a b : string * Z) : bool :=
  (a.2 <? b.2)%Z || ((a.2 =? b.2)%Z && String.ltb a.1 b.1).

(** The member-to-score dictionary of a sorted set. *)
Fixpoint zsetScore (member : string) (zs : zset) : option Z :=
  match zs with
  | [] => None
  | (m, s) :: zs' =>
      if String.eqb m member then Some s else zsetScore member zs'
  end.

Fixpoint zslInsert (score : Z) (member : string) (zs : zset) : zset :=
  match zs with
  | [] => [(member, score)]
  | e :: zs' =>
      if zslLt e (member, score) then e :: zslInsert score member zs'
      else (member, score) :: zs
  end.

Fixpoint zslDelete (member : string) (zs : zset) : zset :=
  match zs with
  | [] => []
  | (m, s) :: zs' =>
      if String.eqb m member then zs' else (m, s) :: zslDelete member zs'
  end.

(** ZADD of one pair without flags: a new member is inserted, a member
    whose score changes is moved, an unchanged one is left alone. *)
Definition zsetAdd (score : Z) (member : string) (zs : zset) : zset :=
  match zsetScore member zs with
  | Some cur =>
      if (cur =? score)%Z then zs
      else zslInsert score member (zslDelete member zs)
  | None => zslInsert score member zs
  end.

(** 0-based position from the low end. *)
Fixpoint zslGetRank (member : string) (zs : zset) : option nat :=
  match zs with
  | [] => None
  | (m, _) :: zs' =>
      if String.eqb m member then Some 0%nat
      else S <$> zslGetRank member zs'
  end.

(** Rank counted from the high end, as ZREVRANK answers it. *)
Definition zsetRevRank (member : string) (zs : zset) : option Z :=
  (λ r, Z.of_nat (length zs) - 1 - Z.of_nat r)%Z <$> zslGetRank member zs.

(** The reverse range by rank of [genericZrangebyrankCommand]: negative
    indices count from the end, the range is clipped to the set. *)
Definition zsetRevRange (zs : zset) (start stop : Z) : list (string * Z) :=
  let llen := Z.of_nat (length zs) in
  let start := if (start <? 0)%Z then (llen + start)%Z else start in
  let stop := if (stop <? 0)%Z then (llen + stop)%Z else stop in
  let start := if (start <? 0)%Z then 0%Z else start in
  if (stop <? start)%Z || (llen <=? start)%Z then []
  else
    let stop := if (llen <=? stop)%Z then (llen - 1)%Z else stop in
    take (Z.to_nat (stop - start + 1)) (drop (Z.to_nat start) (reverse zs)).

(** ** Commands as state transitions *)

Inductive outcome (A : Type) : Type :=
| Return (a : A)
| Raise.
Arguments Return {A} a.
Arguments Raise {A}.

(** A call runs against the database (key to sorted set) and either returns
    or raises; the database it leaves behind is threaded on. *)
Definition redis (A : Type) : Type :=
  gmap string zset → outcome A * gmap string zset.

#[global] Instance redis_ret : MRet redis := λ A a d, (Return a, d).

#[global] Instance redis_bind : MBind redis := λ A B k c d,
  match c d with
  | (Return a, d') => k a d'
  | (Raise, d') => (Raise, d')
  end.

(** Does the decimal text of [z] parse as a C [long]? *)
Definition is_long (z : Z) : bool :=
  (- 2 ^ 63 <=? z)%Z && (z <? 2 ^ 63)%Z.

Definition zadd (key member : string) (score : Z) : redis Z := λ d,
  match Double.of_int score with
  | None => (Raise, d)
  | Some v =>
      let zs := default [] (d !! key) in
      (Return (match zsetScore member zs with Some _ => 0 | None => 1 end)%Z,
       <[key := zsetAdd v member zs]> d)
  end.

Definition zscore (key member : string) : redis (option Z) := λ d,
  (Return (d !! key ≫= zsetScore member), d).

Definition zrevrank (key member : string) : redis (option Z) := λ d,
  (Return (d !! key ≫= zsetRevRank member), d).

(** ZREVRANGE key start stop WITHSCORES. *)
Definition zrevrange (key : string) (start stop : Z)
  : redis (list (string * Z)) := λ d,
  if is_long start && is_long stop
  then (Return (from_option (λ zs, zsetRevRange zs start stop) []
                  (d !! key)), d)
  else (Raise, d).

(** ** The repositories *)

Definition leaderboard_key (quiz_id : string) : string :=
  ("leaderboard:" +:+ quiz_id)%string.

(** [[(user.decode('utf-8'), int(score)) for user, score in rows]] *)
Definition decode_rows (rows : list (string * Z)) : list (string * Z) :=
  (λ row, (row.1, Double.to_int row.2)) <$> rows.

Module QuizPlayRepo.

(** ZADD of the one pair; the [print] after it only writes to standard
    output. *)
Definition update_score (quiz_id user_id : string) (score : Z) : redis () :=
  _ ← zadd (leaderboard_key quiz_id) user_id score;
  mret ().

End QuizPlayRepo.

Module LeaderBoardRepo.

Definition get_user_score (quiz_id user_id : string) : redis Z :=
  score ← zscore (leaderboard_key quiz_id) user_id;
  match score with
  | None => mret 0%Z
  | Some score => mret (Double.to_int score)
  end.

Definition get_user_rank (quiz_id user_id : string) : redis Z :=
  rank ← zrevrank (leaderboard_key quiz_id) user_id;
  match rank with
  | None => mret (-1)%Z
  | Some rank => mret rank
  end.

Definition get_top_k_players (quiz_id : string) (k : Z)
  : redis (list (string * Z)) :=
  top_players ← zrevrange (leaderboard_key quiz_id) 0 (k - 1);
  mret (decode_rows top_players).

Definition get_m_users_around_rank (quiz_id : string) (user_rank m : Z)
  : redis (list (string * Z)) :=
  let start := (0 `max` (user_rank - m `div` 2))%Z in
  let end_ := (user_rank + m `div` 2)%Z in
  users_around_rank ← zrevrange (leaderboard_key quiz_id) start end_;
  mret (decode_rows users_around_rank).

End LeaderBoardRepo.

Import QuizPlayRepo LeaderBoardRepo.

(** A history of [update_score] calls, oldest first, run from a database. *)
Definition run_updates (calls : list (string * string * Z))
    (d : gmap string zset) : gmap string zset :=
  foldl (λ d c, (update_score c.1.1 c.1.2 c.2 d).2) d calls.

(** The participants of a quiz as the store holds them, lowest first, and
    the same list read the way ZREVRANGE and ZREVRANK read it. *)
Definition entries (quiz_id : string) (d : gmap string zset) : zset :=
  default [] (d !! leaderboard_key quiz_id).

Definition ranking (quiz_id : string) (d : gmap string zset)
  : list (string * Z) :=
  reverse (entries quiz_id d).

(** ** Order keys *)

(** [outranks a b]: [a] has the higher score, or the same score and the
    greater identifier. *)
Definition outranks (a b : string * Z) : bool :=
  (b.2 <? a.2)%Z || ((a.2 =? b.2)%Z && String.ltb b.1 a.1).

(** The order-key of the specification: higher score, or the same score and
    the smaller identifier. *)
Definition spec_outranks (a b : string * Z) : bool :=
  (b.2 <? a.2)%Z || ((a.2 =? b.2)%Z && String.ltb a.1 b.1).

(** Number of entries of [l] that come strictly before [e] under [before]. *)
Definition count_before (before : string * Z → string * Z → bool)
    (e : string * Z) (l : list (string * Z)) : nat :=
  length (List.filter (λ x, before x e) l).

(** Rows listed best first: every row outranks all rows after it. *)
Definition in_ranking_order (rows : list (string * Z)) : Prop :=
  StronglySorted (λ a b, outranks a b = true) rows.

(** The same with the order-key of the specification. *)
Definition in_spec_order (rows : list (string * Z)) : Prop :=
  StronglySorted (λ a b, spec_outranks a b = true) rows.

(** ** Representation invariant of the store *)

Definition zset_ok (zs : zset) : Prop :=
  StronglySorted (λ a b, zslLt a b = true) zs ∧ NoDup zs.*1.

Definition db_ok (d : gmap string zset) : Prop :=
  ∀ key zs, d !! key = Some zs → zset_ok zs.

(** ** Sample databases *)

Definition alice_bob_carol : gmap string zset :=
  run_updates
    [("q1", "alice", 50%Z); ("q1", "bob", 80%Z); ("q1", "carol", 80%Z)] ∅.

Definition carol_bob_alice : gmap string zset :=
  run_updates
    [("q1", "carol", 80%Z); ("q1", "bob", 80%Z); ("q1", "alice", 50%Z)] ∅.

(** ** Notions used to state how calls compose *)

(** The entries of a sorted set that belong to other members than [p]. *)
Definition rivals (p : string) (zs : zset) : zset :=
  List.filter (λ e, negb (String.eqb e.1 p)) zs.

(** The score the last [update_score] call of a history left for [p] in
    quiz [q]: that of the last call naming [q] and [p] whose score the
    store accepted, as the double it was stored as. *)
Definition last_write (q p : string) (calls : list (string * string * Z))
  : option Z :=
  foldl (λ acc c,
           if decide (c.1.1 = q ∧ c.1.2 = p)
           then match Double.of_int c.2 with Some v => Some v | None => acc end
           else acc)
    None calls.

(** * Properties *)

(** ** Byte-string order *)

Section string_order.

Lemma ascii_compare_lt_trans a b c :
  Ascii.compare a b = Lt → Ascii.compare b c = Lt → Ascii.compare a c = Lt.
Proof.
  unfold Ascii.compare. rewrite !N.compare_lt_iff. lia.
Qed.

Lemma string_compare_refl s : String.compare s s = Eq.
Proof.
  induction s as [|a s IH]; simpl; [done|].
  unfold Ascii.compare. by rewrite N.compare_refl.
Qed.

Lemma string_compare_lt_trans s1 s2 s3 :
  String.compare s1 s2 = Lt → String.compare s2 s3 = Lt →
  String.compare s1 s3 = Lt.
Proof.
  revert s2 s3. induction s1 as [|a s1 IH]; intros [|b s2] [|c s3]; simpl;
    try done.
  destruct (Ascii.compare a b) eqn:Hab; try done;
    destruct (Ascii.compare b c) eqn:Hbc; try done; intros H1 H2.
  - apply Ascii.compare_eq_iff in Hab, Hbc. subst.
    unfold Ascii.compare. rewrite N.compare_refl. eauto.
  - apply Ascii.compare_eq_iff in Hab. subst. by rewrite Hbc.
  - apply Ascii.compare_eq_iff in Hbc. subst. by rewrite Hab.
  - by rewrite (ascii_compare_lt_trans a b c).
Qed.

Lemma string_ltb_irrefl s : String.ltb s s = false.
Proof. unfold String.ltb. by rewrite string_compare_refl. Qed.

Lemma string_ltb_trans s1 s2 s3 :
  String.ltb s1 s2 = true → String.ltb s2 s3 = true →
  String.ltb s1 s3 = true.
Proof.
  unfold String.ltb.
  destruct (String.compare s1 s2) eqn:H12; try done.
  destruct (String.compare s2 s3) eqn:H23; try done.
  by rewrite (string_compare_lt_trans s1 s2 s3).
Qed.

Lemma string_ltb_asym s1 s2 :
  String.ltb s1 s2 = true → String.ltb s2 s1 = false.
Proof.
  unfold String.ltb. rewrite (String.compare_antisym s2 s1).
  by destruct (String.compare s1 s2).
Qed.

Lemma string_ltb_total s1 s2 :
  String.ltb s1 s2 = false → String.ltb s2 s1 = false → s1 = s2.
Proof.
  unfold String.ltb. rewrite (String.compare_antisym s2 s1).
  destruct (String.compare s1 s2) eqn:H; simpl; try done.
  intros _ _. by apply String.compare_eq_iff.
Qed.

End string_order.

(** ** The skip-list order is a strict total order *)

Section skiplist_order.

Implicit Types a b c : string * Z.

Lemma zslLt_spec a b :
  zslLt a b = true ↔
  (a.2 < b.2)%Z ∨ (a.2 = b.2 ∧ String.ltb a.1 b.1 = true).
Proof.
  unfold zslLt.
  rewrite orb_true_iff, andb_true_iff, Z.ltb_lt, Z.eqb_eq. tauto.
Qed.

Lemma zslLt_irrefl a : zslLt a a = false.
Proof.
  unfold zslLt. rewrite Z.ltb_irrefl, string_ltb_irrefl.
  by rewrite andb_false_r.
Qed.

Lemma zslLt_trans a b c :
  zslLt a b = true → zslLt b c = true → zslLt a c = true.
Proof.
  rewrite !zslLt_spec. intros [?|[? Hab]] [?|[? Hbc]]; try (left; lia).
  right. split; [lia|]. by apply (string_ltb_trans _ b.1).
Qed.

Lemma zslLt_asym a b : zslLt a b = true → zslLt b a = false.
Proof.
  intros H. destruct (zslLt b a) eqn:H'; [|done].
  by rewrite <-(zslLt_irrefl a), (zslLt_trans a b a).
Qed.

Lemma zslLt_total a b : zslLt a b = false → zslLt b a = false → a = b.
Proof.
  destruct a as [ma sa], b as [mb sb]. unfold zslLt. simpl.
  rewrite !orb_false_iff, !andb_false_iff, !Z.ltb_ge, !Z.eqb_neq.
  intros [? [?|Hab]] [? [?|Hba]]; try lia.
  assert (sa = sb) as -> by lia. f_equal. by apply string_ltb_total.
Qed.

Lemma outranks_zslLt a b : outranks a b = zslLt b a.
Proof. unfold outranks, zslLt. by rewrite (Z.eqb_sym a.2 b.2). Qed.

End skiplist_order.

(** ** Strongly sorted lists *)

Section sorted_lists.

Context {A : Type} (R : relation A).

Lemma StronglySorted_sublist (l1 l2 : list A) :
  l1 `sublist_of` l2 → StronglySorted R l2 → StronglySorted R l1.
Proof.
  induction 1 as [|x l1 l2 Hsub IH|x l1 l2 Hsub IH]; intros Hs;
    [done|..]; apply StronglySorted_inv in Hs as [Hs Hall].
  - constructor; [auto|]. rewrite Forall_forall in Hall |- *.
    intros y Hy. eapply Hall, elem_of_sublist; eauto.
  - auto.
Qed.

Lemma StronglySorted_reverse (l : list A) :
  StronglySorted R l → StronglySorted (flip R) (reverse l).
Proof.
  induction 1 as [|x l Hs IH Hall]; [constructor|].
  rewrite reverse_cons. apply StronglySorted_app_2.
  - intros y z Hy Hz. apply list_elem_of_singleton in Hz as ->.
    rewrite elem_of_reverse in Hy. unfold flip.
    rewrite Forall_forall in Hall. by apply Hall.
  - done.
  - repeat constructor.
Qed.

Lemma StronglySorted_lookup_lt (l : list A) (i j : nat) (a b : A) :
  StronglySorted R l → l !! i = Some a → l !! j = Some b → (i < j)%nat →
  R a b.
Proof.
  intros Hs. revert i j. induction Hs as [|x l Hs IH Hall]; intros i j;
    [done|].
  destruct i as [|i], j as [|j]; simpl; intros Hi Hj Hlt; try lia.
  - simplify_eq. eapply Forall_lookup_1; eauto.
  - apply (IH i j); auto with lia.
Qed.

End sorted_lists.

(** ** Sorted sets *)

Section zset_facts.

Implicit Types (zs : zset) (m : string) (s : Z).

Lemma zsetScore_elem_of m s zs : zsetScore m zs = Some s → (m, s) ∈ zs.
Proof.
  induction zs as [|[m0 s0] zs IH]; simpl; [done|].
  destruct (String.eqb_spec m0 m) as [->|]; intros; simplify_eq.
  - left.
  - right. auto.
Qed.

Lemma zsetScore_None m zs : zsetScore m zs = None ↔ m ∉ zs.*1.
Proof.
  induction zs as [|[m0 s0] zs IH]; simpl.
  - split; [intros _; apply not_elem_of_nil|done].
  - rewrite not_elem_of_cons. simpl.
    destruct (String.eqb_spec m0 m) as [->|Hne].
    + split; [done|]. by intros [? _].
    + rewrite IH. split; [by split|]. by intros [_ ?].
Qed.

Lemma zsetScore_NoDup m s zs :
  NoDup zs.*1 → (m, s) ∈ zs → zsetScore m zs = Some s.
Proof.
  induction zs as [|[m0 s0] zs IH]; simpl; intros Hnd Hin.
  - by apply elem_of_nil in Hin.
  - apply NoDup_cons in Hnd as [Hm0 Hnd].
    apply elem_of_cons in Hin as [Heq|Hin].
    + simplify_eq. by rewrite String.eqb_refl.
    + destruct (String.eqb_spec m0 m) as [->|]; [|auto].
      destruct Hm0. by apply (list_elem_of_fmap_2 fst) in Hin.
Qed.

Lemma zslInsert_perm s m zs : zslInsert s m zs ≡ₚ (m, s) :: zs.
Proof.
  induction zs as [|e zs IH]; simpl; [done|].
  destruct (zslLt e (m, s)); [|done]. rewrite IH. apply Permutation_swap.
Qed.

Lemma zslInsert_sorted s m zs :
  m ∉ zs.*1 →
  StronglySorted (λ a b, zslLt a b = true) zs →
  StronglySorted (λ a b, zslLt a b = true) (zslInsert s m zs).
Proof.
  induction zs as [|e zs IH]; simpl; intros Hm Hs.
  - repeat constructor.
  - apply not_elem_of_cons in Hm as [Hne Hm].
    apply StronglySorted_inv in Hs as [Hs Hall].
    destruct (zslLt e (m, s)) eqn:Hlt.
    + constructor; [auto|]. rewrite zslInsert_perm. by constructor.
    + assert (zslLt (m, s) e = true) as Hgt.
      { destruct (zslLt (m, s) e) eqn:H'; [done|].
        apply zslLt_total in Hlt; [|done]. by subst e. }
      constructor; [by constructor|]. constructor; [done|].
      eapply Forall_impl; [exact Hall|]. intros x Hx. simpl.
      by apply (zslLt_trans _ e).
Qed.

Lemma zslDelete_sublist m zs : zslDelete m zs `sublist_of` zs.
Proof.
  induction zs as [|[m0 s0] zs IH]; simpl; [done|].
  destruct (String.eqb m0 m); [by apply sublist_cons|by apply sublist_skip].
Qed.

Lemma zslDelete_not_elem m zs : NoDup zs.*1 → m ∉ (zslDelete m zs).*1.
Proof.
  induction zs as [|[m0 s0] zs IH]; simpl; intros Hnd.
  - apply not_elem_of_nil.
  - apply NoDup_cons in Hnd as [Hm0 Hnd].
    destruct (String.eqb_spec m0 m) as [<-|]; [done|].
    apply not_elem_of_cons. split; [done|auto].
Qed.

Lemma zsetAdd_ok s m zs : zset_ok zs → zset_ok (zsetAdd s m zs).
Proof.
  intros [Hs Hnd]. unfold zsetAdd.
  destruct (zsetScore m zs) as [cur|] eqn:Hsc.
  - destruct (cur =? s)%Z; [done|].
    pose proof (zslDelete_not_elem m zs Hnd) as Hm. split.
    + apply zslInsert_sorted; [done|].
      eapply StronglySorted_sublist; [apply zslDelete_sublist|done].
    + rewrite zslInsert_perm. apply NoDup_cons. split; [done|].
      eapply sublist_NoDup; [exact Hnd|].
      apply fmap_sublist, zslDelete_sublist.
  - apply zsetScore_None in Hsc. split; [by apply zslInsert_sorted|].
    rewrite zslInsert_perm. by apply NoDup_cons.
Qed.

Lemma zsetScore_zslInsert_eq s m zs :
  m ∉ zs.*1 → zsetScore m (zslInsert s m zs) = Some s.
Proof.
  induction zs as [|[m0 s0] zs IH]; simpl; intros Hm.
  - by rewrite String.eqb_refl.
  - apply not_elem_of_cons in Hm as [Hne Hm]. simpl in Hne.
    destruct (zslLt (m0, s0) (m, s)); simpl.
    + destruct (String.eqb_spec m0 m); [congruence|auto].
    + by rewrite String.eqb_refl.
Qed.

Lemma zsetScore_zslInsert_ne s m m' zs :
  m ≠ m' → zsetScore m' (zslInsert s m zs) = zsetScore m' zs.
Proof.
  intros Hne. induction zs as [|[m0 s0] zs IH]; simpl.
  - by destruct (String.eqb_spec m m').
  - destruct (zslLt (m0, s0) (m, s)); simpl.
    + by rewrite IH.
    + by destruct (String.eqb_spec m m').
Qed.

Lemma zsetScore_zslDelete_ne m m' zs :
  m ≠ m' → zsetScore m' (zslDelete m zs) = zsetScore m' zs.
Proof.
  intros Hne. induction zs as [|[m0 s0] zs IH]; simpl; [done|].
  destruct (String.eqb_spec m0 m) as [->|]; simpl.
  - by destruct (String.eqb_spec m m').
  - by rewrite IH.
Qed.

Lemma zsetScore_zsetAdd_eq s m zs :
  NoDup zs.*1 → zsetScore m (zsetAdd s m zs) = Some s.
Proof.
  intros Hnd. unfold zsetAdd. destruct (zsetScore m zs) as [cur|] eqn:Hsc.
  - destruct (Z.eqb_spec cur s) as [->|]; [done|].
    by apply zsetScore_zslInsert_eq, zslDelete_not_elem.
  - by apply zsetScore_zslInsert_eq, zsetScore_None.
Qed.

Lemma zsetScore_zsetAdd_ne s m m' zs :
  m ≠ m' → zsetScore m' (zsetAdd s m zs) = zsetScore m' zs.
Proof.
  intros Hne. unfold zsetAdd. destruct (zsetScore m zs) as [cur|].
  - destruct (cur =? s)%Z; [done|].
    by rewrite zsetScore_zslInsert_ne, zsetScore_zslDelete_ne.
  - by rewrite zsetScore_zslInsert_ne.
Qed.

End zset_facts.

(** ** Ranks and ranges of one sorted set *)

Section rank_facts.

Implicit Types (zs : zset) (m : string) (s : Z).

Lemma zslGetRank_lookup m zs i :
  zslGetRank m zs = Some i → ∃ s, zs !! i = Some (m, s).
Proof.
  revert i. induction zs as [|[m0 s0] zs IH]; intros i; simpl; [done|].
  destruct (String.eqb_spec m0 m) as [->|Hne].
  - intros [= <-]. by exists s0.
  - destruct (zslGetRank m zs) as [j|]; simpl; [|done].
    intros [= <-]. by apply IH.
Qed.

Lemma zslGetRank_None m zs : zslGetRank m zs = None ↔ m ∉ zs.*1.
Proof.
  induction zs as [|[m0 s0] zs IH]; simpl.
  - split; [intros _; apply not_elem_of_nil|done].
  - rewrite not_elem_of_cons. simpl.
    destruct (String.eqb_spec m0 m) as [->|Hne].
    + split; [done|]. by intros [? _].
    + rewrite <-IH. destruct (zslGetRank m zs); simpl.
      * split; [done|]. by intros [_ ?].
      * split; [by split|done].
Qed.

Lemma zslGetRank_present m s zs :
  NoDup zs.*1 → (m, s) ∈ zs →
  ∃ i, zslGetRank m zs = Some i ∧ zs !! i = Some (m, s).
Proof.
  intros Hnd Hin. destruct (zslGetRank m zs) as [i|] eqn:Hrk.
  - exists i. split; [done|].
    destruct (zslGetRank_lookup m zs i Hrk) as [s' Hi].
    pose proof (zsetScore_NoDup m s zs Hnd Hin) as H1.
    pose proof (zsetScore_NoDup m s' zs Hnd
                  (list_elem_of_lookup_2 _ _ _ Hi)) as H2.
    congruence.
  - apply zslGetRank_None in Hrk. destruct Hrk.
    by apply (list_elem_of_fmap_2 fst) in Hin.
Qed.

Lemma filter_all {A} (f : A → bool) (l : list A) :
  Forall (λ x, f x = true) l → List.filter f l = l.
Proof.
  induction 1 as [|x l Hx Hall IH]; simpl; [done|]. by rewrite Hx, IH.
Qed.

(** In a sorted set, the entries that outrank the one at position [i] are
    exactly those stored after it. *)
Lemma count_outranks_sorted zs i e :
  StronglySorted (λ a b, zslLt a b = true) zs → zs !! i = Some e →
  count_before outranks e zs = (length zs - S i)%nat.
Proof.
  unfold count_before. intros Hs. revert i.
  induction Hs as [|a zs Hs IH Hall]; intros i; [done|].
  destruct i as [|i]; simpl; intros Hi.
  - simplify_eq. rewrite outranks_zslLt, zslLt_irrefl.
    rewrite filter_all; [lia|].
    eapply Forall_impl; [exact Hall|]. intros x Hx. simpl.
    by rewrite outranks_zslLt.
  - rewrite outranks_zslLt, (zslLt_asym a e).
    + by apply IH.
    + eapply Forall_lookup_1 in Hall; eauto.
Qed.

Lemma zsetRevRange_nonneg zs start stop :
  (0 ≤ start)%Z → (0 ≤ stop)%Z →
  zsetRevRange zs start stop =
  take (Z.to_nat (stop - start + 1)) (drop (Z.to_nat start) (reverse zs)).
Proof.
  intros Hstart Hstop. unfold zsetRevRange.
  rewrite (proj2 (Z.ltb_ge start 0) Hstart), (proj2 (Z.ltb_ge stop 0) Hstop).
  rewrite (proj2 (Z.ltb_ge start 0) Hstart).
  destruct (Z.ltb_spec stop start); simpl.
  { by replace (Z.to_nat (stop - start + 1)) with 0%nat by lia. }
  destruct (Z.leb_spec (Z.of_nat (length zs)) start); simpl.
  { rewrite drop_ge; [by rewrite take_nil|rewrite length_reverse; lia]. }
  destruct (Z.leb_spec (Z.of_nat (length zs)) stop); [|done].
  rewrite !take_ge; [done|..]; rewrite length_drop, length_reverse; lia.
Qed.

Lemma decode_rows_id (rows : list (string * Z)) : decode_rows rows = rows.
Proof.
  unfold decode_rows, Double.to_int.
  induction rows as [|[u s] rows IH]; [done|].
  rewrite fmap_cons. by f_equal.
Qed.

End rank_facts.

(** ** The commands and the repositories on the store *)

Lemma StronglySorted_impl {A} (R R' : relation A) (l : list A) :
  (∀ a b, R a b → R' a b) → StronglySorted R l → StronglySorted R' l.
Proof.
  intros HR. induction 1 as [|x l Hs IH Hall]; constructor; [done|].
  eapply Forall_impl; eauto.
Qed.

Section store_facts.

Implicit Types (d : gmap string zset) (q p : string) (s k : Z).

Lemma leaderboard_key_inj q q' :
  leaderboard_key q = leaderboard_key q' → q = q'.
Proof.
  unfold leaderboard_key. intros H. cbv [String.append] in H.
  by simplify_eq.
Qed.

Lemma is_long_spec z : is_long z = true ↔ (- 2 ^ 63 ≤ z < 2 ^ 63)%Z.
Proof. unfold is_long. rewrite andb_true_iff, Z.leb_le, Z.ltb_lt. done. Qed.

Lemma zsetRevRange_nil start stop : zsetRevRange [] start stop = [].
Proof.
  unfold zsetRevRange. simpl.
  repeat match goal with
    | |- context [(?a <? ?b)%Z] => destruct (Z.ltb_spec a b)
    | |- context [(?a <=? ?b)%Z] => destruct (Z.leb_spec a b)
    end; simpl; try done; lia.
Qed.

Lemma update_score_unfold q p s d :
  update_score q p s d =
  match Double.of_int s with
  | Some v =>
      (Return (), <[leaderboard_key q := zsetAdd v p (entries q d)]> d)
  | None => (Raise, d)
  end.
Proof.
  unfold update_score, mbind, redis_bind, zadd, entries.
  by destruct (Double.of_int s).
Qed.

Lemma get_user_score_unfold q p d :
  get_user_score q p d =
  (Return (default 0%Z (zsetScore p (entries q d))), d).
Proof.
  unfold get_user_score, mbind, redis_bind, zscore, entries.
  destruct (d !! leaderboard_key q) as [zs|]; simpl; [|done].
  by destruct (zsetScore p zs).
Qed.

Lemma get_user_rank_unfold q p d :
  get_user_rank q p d =
  (Return (default (-1)%Z (zsetRevRank p (entries q d))), d).
Proof.
  unfold get_user_rank, mbind, redis_bind, zrevrank, entries.
  destruct (d !! leaderboard_key q) as [zs|]; simpl; [|done].
  by destruct (zsetRevRank p zs).
Qed.

Lemma zrevrange_unfold q start stop d :
  zrevrange (leaderboard_key q) start stop d =
  if is_long start && is_long stop
  then (Return (zsetRevRange (entries q d) start stop), d)
  else (Raise, d).
Proof.
  unfold zrevrange, entries.
  destruct (is_long start && is_long stop); [|done].
  destruct (d !! leaderboard_key q); simpl; [done|].
  by rewrite zsetRevRange_nil.
Qed.

Lemma get_top_k_players_unfold q k d :
  get_top_k_players q k d =
  if is_long (k - 1)
  then (Return (zsetRevRange (entries q d) 0 (k - 1)), d)
  else (Raise, d).
Proof.
  unfold get_top_k_players, mbind, redis_bind. rewrite zrevrange_unfold.
  change (is_long 0) with true. simpl.
  destruct (is_long (k - 1)); [|done].
  unfold mret, redis_ret. by rewrite decode_rows_id.
Qed.

Lemma get_m_users_around_rank_unfold q r m d :
  get_m_users_around_rank q r m d =
  if is_long (0 `max` (r - m `div` 2)) && is_long (r + m `div` 2)
  then (Return (zsetRevRange (entries q d)
                  (0 `max` (r - m `div` 2)) (r + m `div` 2)), d)
  else (Raise, d).
Proof.
  unfold get_m_users_around_rank, mbind, redis_bind.
  rewrite zrevrange_unfold.
  destruct (is_long _ && is_long _); [|done].
  unfold mret, redis_ret. by rewrite decode_rows_id.
Qed.

(** The invariant holds of every database the repositories can build. *)

Lemma db_ok_empty : db_ok ∅.
Proof. intros key zs. by rewrite lookup_empty. Qed.

Lemma entries_ok q d : db_ok d → zset_ok (entries q d).
Proof.
  intros Hd. unfold entries.
  destruct (d !! leaderboard_key q) as [zs|] eqn:Hq; simpl; [by eapply Hd|].
  split; constructor.
Qed.

Lemma update_score_ok q p s d : db_ok d → db_ok (update_score q p s d).2.
Proof.
  intros Hd. rewrite update_score_unfold.
  destruct (Double.of_int s) as [v|]; simpl; [|done].
  intros key zs. rewrite lookup_insert. case_decide.
  - intros [= <-]. by apply zsetAdd_ok, entries_ok.
  - apply Hd.
Qed.

Lemma run_updates_ok calls d : db_ok d → db_ok (run_updates calls d).
Proof.
  revert d. induction calls as [|c calls IH]; intros d Hd; simpl; [done|].
  by apply IH, update_score_ok.
Qed.

Lemma entries_update_ne q q' p s d :
  q ≠ q' → entries q' (update_score q p s d).2 = entries q' d.
Proof.
  intros Hne. rewrite update_score_unfold.
  destruct (Double.of_int s) as [v|]; simpl; [|done].
  unfold entries at 1. rewrite lookup_insert_ne; [done|].
  intros Heq. by apply leaderboard_key_inj in Heq.
Qed.

Lemma entries_update_eq q p s v d :
  Double.of_int s = Some v →
  entries q (update_score q p s d).2 = zsetAdd v p (entries q d).
Proof.
  intros Hv. rewrite update_score_unfold, Hv. simpl.
  unfold entries at 1. by rewrite lookup_insert_eq.
Qed.

Lemma ranking_sorted q d :
  db_ok d → StronglySorted (λ a b, outranks a b = true) (ranking q d).
Proof.
  intros Hd. destruct (entries_ok q d Hd) as [Hs _].
  apply StronglySorted_reverse in Hs.
  eapply StronglySorted_impl; [|exact Hs].
  intros a b. unfold flip. by rewrite outranks_zslLt.
Qed.

Lemma length_ranking q d : length (ranking q d) = length (entries q d).
Proof. apply length_reverse. Qed.

(** The rank of a participant is its position in the ranking, and the
    number of entries that outrank it. *)
Lemma rank_position q p s d :
  db_ok d → (p, s) ∈ entries q d →
  ∃ r : nat,
    get_user_rank q p d = (Return (Z.of_nat r), d) ∧
    ranking q d !! r = Some (p, s) ∧
    r = count_before outranks (p, s) (entries q d).
Proof.
  intros Hd Hin. destruct (entries_ok q d Hd) as [Hs Hnd].
  destruct (zslGetRank_present p s _ Hnd Hin) as (i & Hrk & Hi).
  pose proof (lookup_lt_Some _ _ _ Hi) as Hlt.
  exists (length (entries q d) - S i)%nat. split_and!.
  - rewrite get_user_rank_unfold. unfold zsetRevRank. rewrite Hrk. simpl.
    do 2 f_equal. lia.
  - unfold ranking. rewrite reverse_lookup by lia. rewrite <-Hi.
    f_equal. lia.
  - symmetry. by apply count_outranks_sorted.
Qed.

End store_facts.

(** ** Doubles that hold an integer exactly *)

Lemma of_int_exact (z : Z) :
  (Z.abs z ≤ 2 ^ 53)%Z → Double.of_int z = Some z.
Proof.
  intros Hz. destruct (decide (Z.abs z = 2 ^ 53)%Z) as [Heq|Hne].
  - assert (z = 2 ^ 53 ∨ z = - 2 ^ 53)%Z as [->| ->] by lia;
      by vm_compute.
  - unfold Double.of_int, Double.round_nat.
    rewrite (proj2 (Z.ltb_lt (Z.abs z) (2 ^ 53)%Z)) by lia.
    rewrite Z.mul_comm, Z.abs_sgn.
    rewrite (proj2 (Z.ltb_lt (Z.abs z) (2 ^ 1024)%Z)); [done|].
    assert (2 ^ 53 < 2 ^ 1024)%Z by (by apply Z.pow_lt_mono_r).
    lia.
Qed.

(** ** Queries against the ranking *)

Section query_facts.

Implicit Types (d : gmap string zset) (q p : string) (s k : Z).

Lemma outranks_irrefl a : outranks a a = false.
Proof. rewrite outranks_zslLt. apply zslLt_irrefl. Qed.

Lemma outranks_asym a b : outranks a b = true → outranks b a = false.
Proof. rewrite !outranks_zslLt. apply zslLt_asym. Qed.

Lemma zsetRevRange_sublist (zs : zset) start stop :
  zsetRevRange zs start stop `sublist_of` reverse zs.
Proof.
  unfold zsetRevRange. destruct (_ || _); [apply sublist_nil_l|].
  etrans; [apply sublist_take|apply sublist_drop].
Qed.

Lemma take_1_drop {A} (l : list A) (i : nat) :
  take 1 (drop i l) = option_list (l !! i).
Proof.
  rewrite <-(Nat.add_0_r i) at 2. rewrite <-lookup_drop.
  by destruct (drop i l) as [|x [|y l']].
Qed.

Lemma zrange_rows q start stop d :
  (0 ≤ start < 2 ^ 63)%Z → (0 ≤ stop < 2 ^ 63)%Z →
  zrevrange (leaderboard_key q) start stop d =
  (Return (take (Z.to_nat (stop - start + 1))
             (drop (Z.to_nat start) (ranking q d))), d).
Proof.
  intros Hstart Hstop. rewrite zrevrange_unfold.
  rewrite (proj2 (is_long_spec start)), (proj2 (is_long_spec stop)) by lia.
  simpl. by rewrite zsetRevRange_nonneg by lia.
Qed.

Lemma top_k_rows q k d :
  (1 ≤ k ≤ 2 ^ 63)%Z →
  get_top_k_players q k d = (Return (take (Z.to_nat k) (ranking q d)), d).
Proof.
  intros Hk. rewrite get_top_k_players_unfold.
  rewrite (proj2 (is_long_spec (k - 1))) by lia.
  rewrite zsetRevRange_nonneg by lia. unfold ranking. simpl.
  do 3 f_equal. lia.
Qed.

Lemma window_rows q r m d :
  (0 `max` (r - m `div` 2) < 2 ^ 63)%Z → (0 ≤ r + m `div` 2 < 2 ^ 63)%Z →
  get_m_users_around_rank q r m d =
  (Return (take (Z.to_nat (r + m `div` 2 - 0 `max` (r - m `div` 2) + 1))
             (drop (Z.to_nat (0 `max` (r - m `div` 2))) (ranking q d))), d).
Proof.
  intros Hlo Hhi. rewrite get_m_users_around_rank_unfold.
  rewrite (proj2 (is_long_spec _)), (proj2 (is_long_spec (r + _))) by lia.
  simpl. by rewrite zsetRevRange_nonneg by lia.
Qed.

Lemma top_k_sorted q k d rows :
  db_ok d → (get_top_k_players q k d).1 = Return rows →
  StronglySorted (λ a b, outranks a b = true) rows.
Proof.
  intros Hd. rewrite get_top_k_players_unfold.
  destruct (is_long (k - 1)); simpl; [|done]. intros [= <-].
  eapply StronglySorted_sublist; [apply zsetRevRange_sublist|].
  by apply ranking_sorted.
Qed.

Lemma window_sorted q r m d rows :
  db_ok d → (get_m_users_around_rank q r m d).1 = Return rows →
  StronglySorted (λ a b, outranks a b = true) rows.
Proof.
  intros Hd. rewrite get_m_users_around_rank_unfold.
  destruct (is_long _ && is_long _); simpl; [|done]. intros [= <-].
  eapply StronglySorted_sublist; [apply zsetRevRange_sublist|].
  by apply ranking_sorted.
Qed.

Lemma score_present q p s d :
  db_ok d → (p, s) ∈ entries q d → get_user_score q p d = (Return s, d).
Proof.
  intros Hd Hin. destruct (entries_ok q d Hd) as [_ Hnd].
  rewrite get_user_score_unfold. by rewrite (zsetScore_NoDup p s).
Qed.

Lemma ranking_NoDup q d : db_ok d → NoDup (ranking q d).
Proof.
  intros Hd. destruct (entries_ok q d Hd) as [_ Hnd].
  unfold ranking. rewrite reverse_Permutation. by eapply NoDup_fmap_1.
Qed.

Lemma rank_of_position q p s d (j : nat) :
  db_ok d → ranking q d !! j = Some (p, s) →
  get_user_rank q p d = (Return (Z.of_nat j), d).
Proof.
  intros Hd Hj.
  assert ((p, s) ∈ entries q d) as Hin.
  { apply elem_of_reverse. by eapply list_elem_of_lookup_2. }
  destruct (rank_position q p s d Hd Hin) as (r & Hr & Hpos & _).
  by rewrite (NoDup_lookup _ j r (p, s) (ranking_NoDup q d Hd) Hj Hpos).
Qed.

Lemma absent_key calls q :
  (∀ c, c ∈ calls → c.1.1 ≠ q) →
  ∀ d, d !! leaderboard_key q = None →
       run_updates calls d !! leaderboard_key q = None.
Proof.
  induction calls as [|c calls IH]; intros Hq d Hd; simpl; [done|].
  apply IH; [intros c' Hc'; apply Hq; by right|].
  rewrite update_score_unfold.
  destruct (Double.of_int c.2); simpl; [|done].
  rewrite lookup_insert_ne; [done|]. intros Heq.
  apply leaderboard_key_inj in Heq. by apply (Hq c); [left|].
Qed.

End query_facts.

(** * The claims *)

(** ** C1: the order of results and ranks *)

(** C1, as stated, fails: with alice 50, bob 80 and carol 80 the top three
    are carol, bob, alice whatever the order of the updates, carol has rank
    0 and bob rank 1, although bob and carol tie and "bob" is the smaller
    identifier. *)
Lemma tie_break_is_not_ascending :
  (get_top_k_players "q1" 3 alice_bob_carol).1
    = Return [("carol", 80%Z); ("bob", 80%Z); ("alice", 50%Z)] ∧
  (get_top_k_players "q1" 3 carol_bob_alice).1
    = Return [("carol", 80%Z); ("bob", 80%Z); ("alice", 50%Z)] ∧
  (get_user_rank "q1" "carol" alice_bob_carol).1 = Return 0%Z ∧
  (get_user_rank "q1" "bob" alice_bob_carol).1 = Return 1%Z ∧
  ¬ in_spec_order [("carol", 80%Z); ("bob", 80%Z); ("alice", 50%Z)].
Proof.
  split_and!; try (vm_compute; reflexivity).
  intros Hs. apply StronglySorted_inv in Hs as [_ Hall].
  apply Forall_cons in Hall as [Hcb _]. vm_compute in Hcb. discriminate.
Qed.

(** C1, amended: after any history of updates, the rows of
    [get_top_k_players] and of [get_m_users_around_rank] are ordered by
    score descending and, at equal score, by identifier descending (byte
    order); and of two participants of a quiz the one with the smaller
    rank is the one with the higher score or, at equal score, the greater
    identifier. *)
Theorem results_ordered_by_score_then_identifier_descending
    (calls : list (string * string * Z)) (q : string) :
  let d := run_updates calls ∅ in
  (∀ k rows, (get_top_k_players q k d).1 = Return rows →
             in_ranking_order rows) ∧
  (∀ r m rows, (get_m_users_around_rank q r m d).1 = Return rows →
               in_ranking_order rows) ∧
  (∀ p1 s1 p2 s2,
     (p1, s1) ∈ entries q d → (p2, s2) ∈ entries q d →
     ∃ r1 r2,
       (get_user_score q p1 d).1 = Return s1 ∧
       (get_user_score q p2 d).1 = Return s2 ∧
       (get_user_rank q p1 d).1 = Return r1 ∧
       (get_user_rank q p2 d).1 = Return r2 ∧
       ((r1 < r2)%Z ↔ outranks (p1, s1) (p2, s2) = true)).
Proof.
  intros d.
  assert (db_ok d) as Hd by apply run_updates_ok, db_ok_empty.
  split_and!.
  - intros k rows. by apply top_k_sorted.
  - intros r m rows. by apply window_sorted.
  - intros p1 s1 p2 s2 H1 H2.
    destruct (rank_position q p1 s1 d Hd H1) as (r1 & Hr1 & Hp1 & _).
    destruct (rank_position q p2 s2 d Hd H2) as (r2 & Hr2 & Hp2 & _).
    exists (Z.of_nat r1), (Z.of_nat r2).
    rewrite (score_present q p1 s1), (score_present q p2 s2), Hr1, Hr2
      by done.
    split_and!; try done.
    pose proof (ranking_sorted q d Hd) as Hs. split.
    + intros Hlt.
      apply (StronglySorted_lookup_lt _ _ r1 r2 _ _ Hs Hp1 Hp2). lia.
    + intros Hout. destruct (Nat.lt_trichotomy r1 r2) as [?|[->|Hgt]].
      * lia.
      * rewrite Hp1 in Hp2. simplify_eq.
        by rewrite outranks_irrefl in Hout.
      * pose proof (StronglySorted_lookup_lt _ _ r2 r1 _ _ Hs Hp2 Hp1 Hgt)
          as Hrev.
        simpl in Hrev. apply outranks_asym in Hrev. congruence.
Qed.

Lemma results_ordered_witness :
  in_ranking_order [("carol", 80%Z); ("bob", 80%Z); ("alice", 50%Z)].
Proof.
  apply (proj1 (results_ordered_by_score_then_identifier_descending
                  [("q1", "alice", 50%Z); ("q1", "bob", 80%Z);
                   ("q1", "carol", 80%Z)] "q1") 3%Z).
  vm_compute. reflexivity.
Defined.

(** ** C2: the top k *)

(** C2, as stated, fails.  At [k = 0] the call asks ZREVRANGE for the
    ranks 0 to -1, which is the whole sorted set, and at [k = -1] for all
    but the last.  At [k = 1] the one row is carol, while bob comes first
    in the total order of the specification.  And a [k] above 2^63 makes
    the call raise. *)
Lemma top_k_is_not_a_prefix_of_the_spec_order :
  (get_top_k_players "q1" 0 alice_bob_carol).1
    = Return [("carol", 80%Z); ("bob", 80%Z); ("alice", 50%Z)] ∧
  (get_top_k_players "q1" (-1) alice_bob_carol).1
    = Return [("carol", 80%Z); ("bob", 80%Z)] ∧
  (get_top_k_players "q1" 0 alice_bob_carol).1 ≠ Return [] ∧
  (get_top_k_players "q1" 1 alice_bob_carol).1 = Return [("carol", 80%Z)] ∧
  spec_outranks ("bob", 80%Z) ("carol", 80%Z) = true ∧
  (get_top_k_players "q1" 9223372036854775809 alice_bob_carol).1 = Raise.
Proof. split_and!; by vm_compute. Qed.

(** C2, amended: for every [k] with [1 ≤ k ≤ 2^63], after any history of
    updates, [get_top_k_players] returns without error the first
    [min k n] rows of the ranking, which lists the [n] participants by
    score descending (ties by identifier descending); when [k ≥ n] these
    are all [n] entries. *)
Theorem top_k_is_a_prefix_of_the_ranking
    (calls : list (string * string * Z)) (q : string) (k : Z) :
  (1 ≤ k ≤ 2 ^ 63)%Z →
  let d := run_updates calls ∅ in
  let n := length (entries q d) in
  ∃ rows,
    get_top_k_players q k d = (Return rows, d) ∧
    rows = take (Z.to_nat k) (ranking q d) ∧
    length rows = (Z.to_nat k `min` n)%nat ∧
    (Z.of_nat n ≤ k → rows = ranking q d)%Z ∧
    in_ranking_order (ranking q d).
Proof.
  intros Hk d n. exists (take (Z.to_nat k) (ranking q d)). split_and!.
  - by apply top_k_rows.
  - done.
  - by rewrite length_take, length_ranking.
  - intros Hn. apply take_ge. rewrite length_ranking. fold n. lia.
  - apply ranking_sorted, run_updates_ok, db_ok_empty.
Qed.

Lemma top_k_prefix_witness :
  ∃ rows,
    get_top_k_players "q1" 2 alice_bob_carol
      = (Return rows, alice_bob_carol) ∧
    rows = take 2 (ranking "q1" alice_bob_carol) ∧
    length rows = (2 `min` length (entries "q1" alice_bob_carol))%nat ∧
    (Z.of_nat (length (entries "q1" alice_bob_carol)) ≤ 2 →
     rows = ranking "q1" alice_bob_carol)%Z ∧
    in_ranking_order (ranking "q1" alice_bob_carol).
Proof.
  apply (top_k_is_a_prefix_of_the_ranking
           [("q1", "alice", 50%Z); ("q1", "bob", 80%Z); ("q1", "carol", 80%Z)]
           "q1" 2%Z).
  lia.
Defined.

(** ** C3: the rank as a count *)

(** C3, as stated, fails: bob has rank 1, yet no participant has a strictly
    higher order-key than bob when ties go to the smaller identifier. *)
Lemma rank_is_not_the_count_with_ascending_ties :
  (get_user_rank "q1" "bob" alice_bob_carol).1 = Return 1%Z ∧
  (get_user_score "q1" "bob" alice_bob_carol).1 = Return 80%Z ∧
  count_before spec_outranks ("bob", 80%Z) (entries "q1" alice_bob_carol)
    = 0%nat.
Proof. split_and!; by vm_compute. Qed.

(** C3, amended: after any history of updates, the rank of a participant
    present in a quiz is the number of participants of that quiz with a
    higher score, or with the same score and a greater identifier. *)
Theorem rank_counts_the_entries_that_outrank
    (calls : list (string * string * Z)) (q p : string) (s : Z) :
  let d := run_updates calls ∅ in
  (p, s) ∈ entries q d →
  get_user_rank q p d =
  (Return (Z.of_nat (count_before outranks (p, s) (entries q d))), d).
Proof.
  intros d Hin.
  assert (db_ok d) as Hd by apply run_updates_ok, db_ok_empty.
  destruct (rank_position q p s d Hd Hin) as (r & Hr & _ & Hcount).
  by rewrite Hr, Hcount.
Qed.

Lemma rank_counts_witness :
  get_user_rank "q1" "alice" alice_bob_carol =
  (Return (Z.of_nat (count_before outranks ("alice", 50%Z)
                       (entries "q1" alice_bob_carol))), alice_bob_carol).
Proof.
  apply (rank_counts_the_entries_that_outrank
           [("q1", "alice", 50%Z); ("q1", "bob", 80%Z); ("q1", "carol", 80%Z)]
           "q1" "alice" 50%Z).
  apply list_elem_of_In. vm_compute. left. reflexivity.
Defined.

(** ** C4: a negative center rank *)

(** C4, as stated, fails: around rank -1 with width 2 the window holds one
    row, around rank 0 with the same width it holds two. *)
Lemma negative_center_is_not_rank_zero :
  (get_m_users_around_rank "q1" (-1) 2 alice_bob_carol).1
    = Return [("carol", 80%Z)] ∧
  (get_m_users_around_rank "q1" 0 2 alice_bob_carol).1
    = Return [("carol", 80%Z); ("bob", 80%Z)].
Proof. split; by vm_compute. Qed.

(** C4, amended: for a negative center rank [r] and a width [m] with
    [0 ≤ r + m // 2 < 2^63], only the start of the window is clamped to 0:
    the result is the rows of rank 0 to [r + m // 2], that is the first
    [r + m // 2 + 1] rows of the ranking. *)
Theorem negative_center_clamps_only_the_start
    (d : gmap string zset) (q : string) (r m : Z) :
  (r < 0)%Z → (0 ≤ r + m `div` 2 < 2 ^ 63)%Z →
  get_m_users_around_rank q r m d =
  (Return (take (Z.to_nat (r + m `div` 2 + 1)) (ranking q d)), d).
Proof.
  intros Hr Hend.
  assert (0 `max` (r - m `div` 2) = 0)%Z as Hstart by lia.
  rewrite window_rows by lia. rewrite Hstart. simpl.
  by rewrite Z.sub_0_r.
Qed.

Lemma negative_center_witness :
  get_m_users_around_rank "q1" (-1) 4 alice_bob_carol =
  (Return (take (Z.to_nat (-1 + 4 `div` 2 + 1)) (ranking "q1" alice_bob_carol)),
   alice_bob_carol).
Proof.
  apply (negative_center_clamps_only_the_start alice_bob_carol "q1" (-1) 4).
  - lia.
  - vm_compute. split; [discriminate|reflexivity].
Defined.

(** ** C5: width zero and k zero *)

(** C5, as stated, fails: a window of width 0 around rank 1 is the row of
    rank 1, and the top 0 is not empty either. *)
Lemma zero_width_and_zero_k_are_not_empty :
  (get_m_users_around_rank "q1" 1 0 alice_bob_carol).1
    = Return [("bob", 80%Z)] ∧
  (get_m_users_around_rank "q1" 1 0 alice_bob_carol).1 ≠ Return [] ∧
  (get_top_k_players "q1" 0 alice_bob_carol).1 ≠ Return [].
Proof. split_and!; by vm_compute. Qed.

(** C5, amended: for a center rank [r] with [0 ≤ r < 2^63],
    [get_m_users_around_rank] with width 0 returns without error the one
    row of rank [r] when the quiz has more than [r] participants, and the
    empty sequence otherwise. *)
Theorem zero_width_window_is_the_center_row
    (d : gmap string zset) (q : string) (r : Z) :
  (0 ≤ r < 2 ^ 63)%Z →
  get_m_users_around_rank q r 0 d =
  (Return (option_list (ranking q d !! Z.to_nat r)), d).
Proof.
  intros Hr. rewrite window_rows; change (0 `div` 2)%Z with 0%Z; [|lia..].
  rewrite Z.sub_0_r, Z.add_0_r, Z.max_r by lia.
  replace (Z.to_nat (r - r + 1)) with 1%nat by lia.
  by rewrite take_1_drop.
Qed.

Lemma zero_width_witness :
  get_m_users_around_rank "q1" 2 0 alice_bob_carol =
  (Return (option_list (ranking "q1" alice_bob_carol !! Z.to_nat 2)),
   alice_bob_carol).
Proof.
  apply (zero_width_window_is_the_center_row alice_bob_carol "q1" 2).
  vm_compute. split; [discriminate|reflexivity].
Defined.

(** ** C6: the window *)

(** C6, as stated, fails on the length: with three participants the window
    of width 1 around rank 1 is the range of ranks 1 to 1, clipped at
    neither end, and holds one row, not [min (1 + 1) 3]. *)
Lemma odd_width_window_is_one_short :
  (get_m_users_around_rank "q1" 1 1 alice_bob_carol).1
    = Return [("bob", 80%Z)] ∧
  length (entries "q1" alice_bob_carol) = 3%nat ∧
  (0 ≤ 1 - 1 `div` 2 ∧ 1 + 1 `div` 2 ≤ 3 - 1)%Z ∧
  Z.of_nat (length [("bob", 80%Z)]) ≠ ((1 + 1) `min` 3)%Z.
Proof. split_and!; by vm_compute. Qed.

(** C6, amended: for [r ≥ 0] and [w ≥ 0] with [r + w // 2 < 2^63], after
    any history of updates, [get_m_users_around_rank] returns, in rank
    order, exactly the rows whose rank lies in
    [[max 0 (r - w // 2), r + w // 2]] and in [[0, n - 1]]; their number is
    that of the ranks in both ranges, which is [2 * (w // 2) + 1] when
    neither end is clipped. *)
Theorem window_is_the_clipped_rank_range
    (calls : list (string * string * Z)) (q : string) (r w : Z) :
  (0 ≤ r)%Z → (0 ≤ w)%Z → (r + w `div` 2 < 2 ^ 63)%Z →
  let d := run_updates calls ∅ in
  let n := Z.of_nat (length (entries q d)) in
  let lo := (0 `max` (r - w `div` 2))%Z in
  let hi := (r + w `div` 2)%Z in
  ∃ rows,
    get_m_users_around_rank q r w d = (Return rows, d) ∧
    (∀ (i : nat) e,
       rows !! i = Some e ↔
       ranking q d !! (Z.to_nat lo + i)%nat = Some e ∧
       (lo + Z.of_nat i ≤ hi)%Z) ∧
    (∀ (i : nat) p s,
       rows !! i = Some (p, s) →
       get_user_rank q p d = (Return (lo + Z.of_nat i)%Z, d)) ∧
    (∀ p s,
       (p, s) ∈ rows ↔
       (p, s) ∈ entries q d ∧
       ∃ j, get_user_rank q p d = (Return j, d) ∧ (lo ≤ j ≤ hi)%Z) ∧
    Z.of_nat (length rows) = (0 `max` (hi `min` (n - 1) - lo + 1))%Z ∧
    (w `div` 2 ≤ r → hi ≤ n - 1 →
     Z.of_nat (length rows) = 2 * (w `div` 2) + 1)%Z.
Proof.
  intros Hr Hw Hhi d n lo hi.
  assert (db_ok d) as Hd by apply run_updates_ok, db_ok_empty.
  assert (0 ≤ w `div` 2)%Z as Hhalf by (apply Z.div_pos; lia).
  set (rows := take (Z.to_nat (hi - lo + 1))
                (drop (Z.to_nat lo) (ranking q d))).
  assert (∀ (i : nat) e,
            rows !! i = Some e ↔
            ranking q d !! (Z.to_nat lo + i)%nat = Some e ∧
            (lo + Z.of_nat i ≤ hi)%Z) as Hlookup.
  { intros i e. unfold rows. rewrite lookup_take_Some, lookup_drop.
    apply and_iff_compat_l. unfold lo, hi. lia. }
  assert (Z.of_nat (length rows) = 0 `max` (hi `min` (n - 1) - lo + 1))%Z
    as Hlen.
  { unfold rows. rewrite length_take, length_drop, length_ranking.
    unfold lo, hi, n. lia. }
  assert (∀ (i : nat) p s,
            rows !! i = Some (p, s) →
            get_user_rank q p d = (Return (lo + Z.of_nat i)%Z, d)) as Hrank.
  { intros i p s Hi. apply Hlookup in Hi as [Hi _].
    rewrite (rank_of_position q p s d _ Hd Hi). do 2 f_equal.
    unfold lo. lia. }
  exists rows. split_and!.
  - unfold rows, lo, hi. apply window_rows; lia.
  - done.
  - done.
  - intros p s. split.
    + intros [i Hi]%list_elem_of_lookup_1.
      pose proof (Hrank i p s Hi) as Hj. apply Hlookup in Hi as [Hi Hle].
      split.
      * apply elem_of_reverse. by eapply list_elem_of_lookup_2.
      * exists (lo + Z.of_nat i)%Z. split; [done|]. unfold lo in *. lia.
    + intros (Hin & j & Hj & Hlo & Hle).
      destruct (rank_position q p s d Hd Hin) as (k & Hk & Hpos & _).
      rewrite Hk in Hj. simplify_eq.
      apply (list_elem_of_lookup_2 _ (k - Z.to_nat lo)%nat), Hlookup.
      split; [|lia]. rewrite <-Hpos. f_equal. unfold lo in *. lia.
  - done.
  - intros Hlo Hn. rewrite Hlen. unfold lo, hi in *. lia.
Qed.

Lemma window_range_witness :
  ∃ rows,
    get_m_users_around_rank "q1" 1 2 alice_bob_carol
      = (Return rows, alice_bob_carol) ∧
    Z.of_nat (length rows) = 3%Z.
Proof.
  destruct (window_is_the_clipped_rank_range
              [("q1", "alice", 50%Z); ("q1", "bob", 80%Z);
               ("q1", "carol", 80%Z)] "q1" 1 2)
    as (rows & Hrows & _ & _ & _ & Hlen).
  - lia.
  - lia.
  - vm_compute. reflexivity.
  - exists rows. split; [exact Hrows|]. apply Hlen; vm_compute; discriminate.
Defined.

(** ** C7: reading back a score *)

(** C7, as stated, fails: 2^53 + 1 is not a double, the sorted set stores
    2^53 and that is what [get_user_score] returns. *)
Lemma large_score_is_rounded :
  (update_score "q1" "alice" 9007199254740993 ∅).1 = Return () ∧
  (get_user_score "q1" "alice"
     (update_score "q1" "alice" 9007199254740993 ∅).2).1
    = Return 9007199254740992%Z.
Proof. split; by vm_compute. Qed.

Lemma score_after_update (d : gmap string zset) (q p : string) (s v : Z) :
  db_ok d → Double.of_int s = Some v →
  get_user_score q p (update_score q p s d).2
    = (Return v, (update_score q p s d).2).
Proof.
  intros Hd Hv. rewrite get_user_score_unfold.
  rewrite (entries_update_eq q p s v d Hv).
  destruct (entries_ok q d Hd) as [_ Hnd].
  by rewrite zsetScore_zsetAdd_eq.
Qed.

(** C7, amended: for every score [s] with [|s| ≤ 2^53], after any history
    of updates, [update_score q p s] returns and [get_user_score q p]
    evaluated right after it returns exactly [s]; a further update of [p]
    with such a score [s'] makes it return [s'], whatever [s] was. *)
Theorem score_reads_back_within_double_precision
    (calls : list (string * string * Z)) (q p : string) (s : Z) :
  (Z.abs s ≤ 2 ^ 53)%Z →
  let d := run_updates calls ∅ in
  let d' := (update_score q p s d).2 in
  (update_score q p s d).1 = Return () ∧
  get_user_score q p d' = (Return s, d') ∧
  (∀ s', (Z.abs s' ≤ 2 ^ 53)%Z →
         get_user_score q p (update_score q p s' d').2
           = (Return s', (update_score q p s' d').2)).
Proof.
  intros Hs d d'.
  assert (db_ok d) as Hd by apply run_updates_ok, db_ok_empty.
  split_and!.
  - by rewrite update_score_unfold, of_int_exact.
  - by apply score_after_update, of_int_exact.
  - intros s' Hs'. apply score_after_update; [|by apply of_int_exact].
    by apply update_score_ok.
Qed.

Lemma score_reads_back_witness :
  (get_user_score "q1" "alice"
     (update_score "q1" "alice" 70 alice_bob_carol).2).1 = Return 70%Z.
Proof.
  pose proof (score_reads_back_within_double_precision
                [("q1", "alice", 50%Z); ("q1", "bob", 80%Z);
                 ("q1", "carol", 80%Z)] "q1" "alice" 70) as H.
  simpl in H. destruct H as (_ & H & _).
  - vm_compute. discriminate.
  - exact (f_equal fst H).
Defined.

(** ** C8: a participant without entry *)

(** C8: for a participant with no entry in a quiz, [get_user_rank] returns
    -1 and [get_user_score] returns 0; both return, and leave the store as
    it was. *)
Theorem absent_participant_has_rank_minus_one_and_score_zero
    (d : gmap string zset) (q p : string) :
  (∀ s, (p, s) ∉ entries q d) →
  get_user_rank q p d = (Return (-1)%Z, d) ∧
  get_user_score q p d = (Return 0%Z, d).
Proof.
  intros Habsent.
  assert (p ∉ (entries q d).*1) as Hp.
  { intros ([p' s] & -> & Hin)%list_elem_of_fmap_1. by apply (Habsent s). }
  rewrite get_user_rank_unfold, get_user_score_unfold. unfold zsetRevRank.
  by rewrite (proj2 (zslGetRank_None p _) Hp), (proj2 (zsetScore_None p _) Hp).
Qed.

Lemma absent_participant_witness :
  get_user_rank "q1" "dave" alice_bob_carol
    = (Return (-1)%Z, alice_bob_carol) ∧
  get_user_score "q1" "dave" alice_bob_carol = (Return 0%Z, alice_bob_carol).
Proof.
  apply (absent_participant_has_rank_minus_one_and_score_zero
           alice_bob_carol "q1" "dave").
  intros s Hin. apply list_elem_of_In in Hin. vm_compute in Hin.
  destruct Hin as [H|[H|[H|[]]]]; discriminate H.
Defined.

(** ** C9: reading a quiz that was never written *)

(** C9, as stated, fails for the two range queries: ZREVRANGE rejects an
    index that is no signed 64-bit integer before it looks at the key, so
    on a quiz without any update the call raises instead of returning the
    empty sequence. *)
Lemma unknown_quiz_range_can_raise :
  alice_bob_carol !! leaderboard_key "q2" = None ∧
  (get_top_k_players "q2" 9223372036854775809 alice_bob_carol).1 = Raise ∧
  (get_m_users_around_rank "q2" 9223372036854775808 0 alice_bob_carol).1
    = Raise.
Proof. split_and!; by vm_compute. Qed.

(** C9, amended: on a quiz identifier that no [update_score] call has
    named, [get_user_score] returns 0 and [get_user_rank] returns -1;
    [get_top_k_players] and [get_m_users_around_rank] return the empty
    sequence whenever the indices they pass ([k - 1]; the start and the end
    of the window) are signed 64-bit integers, and raise otherwise; every
    one of them leaves the store unchanged and the quiz has no key in it. *)
Theorem reads_of_an_unknown_quiz
    (calls : list (string * string * Z)) (q : string) :
  (∀ c, c ∈ calls → c.1.1 ≠ q) →
  let d := run_updates calls ∅ in
  d !! leaderboard_key q = None ∧
  (∀ p, get_user_score q p d = (Return 0%Z, d) ∧
        get_user_rank q p d = (Return (-1)%Z, d)) ∧
  (∀ k, get_top_k_players q k d =
        if is_long (k - 1) then (Return [], d) else (Raise, d)) ∧
  (∀ r m, get_m_users_around_rank q r m d =
          if is_long (0 `max` (r - m `div` 2)) && is_long (r + m `div` 2)
          then (Return [], d) else (Raise, d)).
Proof.
  intros Hq d.
  assert (d !! leaderboard_key q = None) as Hkey.
  { by apply absent_key; [|apply lookup_empty]. }
  assert (entries q d = []) as Hnil by (unfold entries; by rewrite Hkey).
  split_and!; [done|..].
  - intros p. by rewrite get_user_score_unfold, get_user_rank_unfold, Hnil.
  - intros k. by rewrite get_top_k_players_unfold, Hnil, zsetRevRange_nil.
  - intros r m.
    by rewrite get_m_users_around_rank_unfold, Hnil, zsetRevRange_nil.
Qed.

Lemma unknown_quiz_witness :
  get_top_k_players "q2" 3 alice_bob_carol = (Return [], alice_bob_carol).
Proof.
  assert (∀ c : string * string * Z,
            c ∈ [("q1", "alice", 50%Z); ("q1", "bob", 80%Z);
                 ("q1", "carol", 80%Z)] → c.1.1 ≠ "q2") as Hq.
  { intros c Hc. apply list_elem_of_In in Hc.
    destruct Hc as [<-|[<-|[<-|[]]]]; discriminate. }
  exact (proj1 (proj2 (proj2
    (reads_of_an_unknown_quiz
       [("q1", "alice", 50%Z); ("q1", "bob", 80%Z); ("q1", "carol", 80%Z)]
       "q2" Hq))) 3%Z).
Defined.

(** ** C10: what an update leaves alone *)

(** C10: [update_score q p s] changes nothing but the entry of [p] in [q]:
    the score of every other participant of [q] is as before, and every
    query on any other quiz answers as before. *)
Theorem update_score_touches_one_entry
    (d : gmap string zset) (q p : string) (s : Z) :
  let d' := (update_score q p s d).2 in
  (∀ p', p' ≠ p →
         (get_user_score q p' d').1 = (get_user_score q p' d).1) ∧
  (∀ q', q' ≠ q →
     (∀ p', (get_user_score q' p' d').1 = (get_user_score q' p' d).1) ∧
     (∀ p', (get_user_rank q' p' d').1 = (get_user_rank q' p' d).1) ∧
     (∀ k, (get_top_k_players q' k d').1 = (get_top_k_players q' k d).1) ∧
     (∀ r m, (get_m_users_around_rank q' r m d').1
             = (get_m_users_around_rank q' r m d).1)).
Proof.
  intros d'. split.
  - intros p' Hp'. rewrite !get_user_score_unfold. simpl. f_equal.
    unfold d'. rewrite update_score_unfold.
    destruct (Double.of_int s) as [v|] eqn:Hv; simpl; [|done].
    unfold entries at 1. rewrite lookup_insert_eq. simpl.
    by rewrite zsetScore_zsetAdd_ne.
  - intros q' Hq'.
    assert (entries q' d' = entries q' d) as Hsame
      by (by apply entries_update_ne).
    split_and!; intros.
    + by rewrite !get_user_score_unfold, Hsame.
    + by rewrite !get_user_rank_unfold, Hsame.
    + rewrite !get_top_k_players_unfold, Hsame. by destruct (is_long _).
    + rewrite !get_m_users_around_rank_unfold, Hsame.
      by destruct (is_long _ && is_long _).
Qed.

Lemma update_score_frame_witness :
  (get_user_score "q1" "bob"
     (update_score "q1" "alice" 90 alice_bob_carol).2).1
  = (get_user_score "q1" "bob" alice_bob_carol).1.
Proof.
  apply (proj1 (update_score_touches_one_entry alice_bob_carol "q1" "alice" 90)
           "bob").
  discriminate.
Defined.


(** * Further properties of the repositories *)

(** ** Histories of updates *)

Section history_facts.

Implicit Types (d : gmap string zset) (q p : string) (s : Z).

Lemma run_updates_snoc calls c d :
  run_updates (calls ++ [c]) d =
  (update_score c.1.1 c.1.2 c.2 (run_updates calls d)).2.
Proof. unfold run_updates. by rewrite foldl_snoc. Qed.

Lemma history_ok calls : db_ok (run_updates calls ∅).
Proof. apply run_updates_ok, db_ok_empty. Qed.

Lemma elem_of_zset_score (zs : zset) p s :
  NoDup zs.*1 → (p, s) ∈ zs ↔ zsetScore p zs = Some s.
Proof.
  intros Hnd. split; [by apply zsetScore_NoDup|apply zsetScore_elem_of].
Qed.

Lemma entry_score q p s d :
  db_ok d → (p, s) ∈ entries q d ↔ zsetScore p (entries q d) = Some s.
Proof.
  intros Hd. apply elem_of_zset_score. by destruct (entries_ok q d Hd).
Qed.

Lemma rank_of_absent q p d :
  zsetScore p (entries q d) = None → get_user_rank q p d = (Return (-1)%Z, d).
Proof.
  intros Hp%zsetScore_None. rewrite get_user_rank_unfold. unfold zsetRevRank.
  by rewrite (proj2 (zslGetRank_None p _) Hp).
Qed.

Lemma score_by_history calls q p :
  zsetScore p (entries q (run_updates calls ∅)) = last_write q p calls.
Proof.
  induction calls as [|[[q0 p0] s0] calls IH] using rev_ind; [done|].
  rewrite run_updates_snoc. unfold last_write. rewrite foldl_snoc.
  fold (last_write q p calls). simpl.
  pose proof (history_ok calls) as Hd. set (d := run_updates calls ∅) in *.
  destruct (decide (q0 = q)) as [->|Hq].
  - rewrite update_score_unfold.
    destruct (decide (p0 = p)) as [->|Hp].
    + rewrite decide_True by done.
      destruct (Double.of_int s0) as [v|]; simpl; [|done].
      unfold entries at 1. rewrite lookup_insert_eq. simpl.
      apply zsetScore_zsetAdd_eq. by destruct (entries_ok q d Hd).
    + rewrite decide_False by (by intros [_ ?]).
      destruct (Double.of_int s0) as [v|]; simpl; [|done].
      unfold entries at 1. rewrite lookup_insert_eq. simpl.
      by rewrite zsetScore_zsetAdd_ne.
  - rewrite decide_False by (by intros [? _]).
    by rewrite entries_update_ne.
Qed.

End history_facts.

(** X1: a participant has an entry in a quiz exactly when some
    [update_score] call for it was accepted, and [get_user_score] returns
    the score of the last accepted call (0 when there is none): scores are
    overwritten, never added up, and entries are never removed. *)
Theorem score_is_the_last_accepted_write
    (calls : list (string * string * Z)) (q p : string) :
  let d := run_updates calls ∅ in
  (∀ s, (p, s) ∈ entries q d ↔ last_write q p calls = Some s) ∧
  get_user_score q p d = (Return (default 0%Z (last_write q p calls)), d).
Proof.
  intros d. split.
  - intros s. unfold d. rewrite entry_score by apply history_ok.
    by rewrite score_by_history.
  - rewrite get_user_score_unfold. unfold d. by rewrite score_by_history.
Qed.

(** X2: [get_user_rank] is a presence check: it returns -1 exactly when no
    [update_score] call for the participant was accepted, and otherwise a
    rank between 0 and the number of participants minus one. *)
Theorem rank_is_minus_one_or_a_position
    (calls : list (string * string * Z)) (q p : string) :
  let d := run_updates calls ∅ in
  ∃ r,
    get_user_rank q p d = (Return r, d) ∧
    (r = -1 ↔ last_write q p calls = None)%Z ∧
    (last_write q p calls ≠ None →
     0 ≤ r < Z.of_nat (length (entries q d)))%Z.
Proof.
  intros d. pose proof (history_ok calls) as Hd. fold d in Hd.
  pose proof (score_by_history calls q p) as Hw. fold d in Hw.
  destruct (last_write q p calls) as [s|] eqn:Hlast.
  - apply entry_score in Hw; [|done].
    destruct (rank_position q p s d Hd Hw) as (r & Hr & Hpos & _).
    apply lookup_lt_Some in Hpos. rewrite length_ranking in Hpos.
    exists (Z.of_nat r). split_and!; [done|split; [lia|done]|lia].
  - exists (-1)%Z. split_and!; [|done|done].
    by apply rank_of_absent.
Qed.

(** ** One update, seen through the queries *)

Section update_facts.

Implicit Types (d : gmap string zset) (zs : zset) (q p : string) (s v : Z).

Lemma zsetAdd_again v p zs :
  NoDup zs.*1 → zsetAdd v p (zsetAdd v p zs) = zsetAdd v p zs.
Proof.
  intros Hnd. unfold zsetAdd at 1.
  by rewrite zsetScore_zsetAdd_eq, Z.eqb_refl.
Qed.

Lemma length_zslInsert s p zs : length (zslInsert s p zs) = S (length zs).
Proof. by rewrite (Permutation_length (zslInsert_perm s p zs)). Qed.

Lemma zslDelete_perm p s zs :
  zsetScore p zs = Some s → zs ≡ₚ (p, s) :: zslDelete p zs.
Proof.
  induction zs as [|[m0 s0] zs IH]; simpl; [done|].
  destruct (String.eqb_spec m0 p) as [->|Hne].
  - by intros [= ->].
  - intros Hs. rewrite (IH Hs) at 1. apply Permutation_swap.
Qed.

Lemma rivals_absent p zs : p ∉ zs.*1 → rivals p zs = zs.
Proof.
  intros Hp. apply filter_all, Forall_forall. intros [m s] Hin. simpl.
  destruct (String.eqb_spec m p) as [->|]; [|done].
  destruct Hp. by apply (list_elem_of_fmap_2 fst) in Hin.
Qed.

Lemma zslDelete_rivals p zs : NoDup zs.*1 → zslDelete p zs = rivals p zs.
Proof.
  induction zs as [|[m0 s0] zs IH]; simpl; intros Hnd; [done|].
  apply NoDup_cons in Hnd as [Hm0 Hnd].
  destruct (String.eqb_spec m0 p) as [->|Hne]; simpl.
  - by rewrite rivals_absent.
  - by rewrite IH.
Qed.

Lemma zset_split p zs :
  NoDup zs.*1 →
  zs ≡ₚ match zsetScore p zs with
        | Some cur => (p, cur) :: rivals p zs
        | None => rivals p zs
        end.
Proof.
  intros Hnd. destruct (zsetScore p zs) as [cur|] eqn:Hs.
  - rewrite <-zslDelete_rivals by done. by apply zslDelete_perm.
  - by rewrite rivals_absent by by apply zsetScore_None.
Qed.

Lemma zsetAdd_perm v p zs :
  NoDup zs.*1 → zsetAdd v p zs ≡ₚ (p, v) :: rivals p zs.
Proof.
  intros Hnd. pose proof (zset_split p zs Hnd) as Hsplit. unfold zsetAdd.
  destruct (zsetScore p zs) as [cur|] eqn:Hs.
  - destruct (Z.eqb_spec cur v) as [->|Hne]; [done|].
    by rewrite zslInsert_perm, zslDelete_rivals.
  - by rewrite zslInsert_perm, <-Hsplit.
Qed.

Lemma filter_none {A} (f : A → bool) (l : list A) :
  Forall (λ x, f x = false) l → List.filter f l = [].
Proof. induction 1 as [|x l Hx Hall IH]; simpl; [done|]. by rewrite Hx. Qed.

Lemma count_before_perm f (e : string * Z) (l l' : list (string * Z)) :
  l ≡ₚ l' → count_before f e l = count_before f e l'.
Proof.
  unfold count_before.
  induction 1 as [|x l l' _ IH|x y l|l1 l2 l3 _ IH1 _ IH2]; simpl.
  - done.
  - destruct (f x e); simpl; by rewrite IH.
  - by destruct (f x e), (f y e).
  - by rewrite IH1.
Qed.

Lemma count_before_cons f (e x : string * Z) (l : list (string * Z)) :
  count_before f e (x :: l) =
  ((if f x e then 1 else 0) + count_before f e l)%nat.
Proof. unfold count_before. simpl. by destruct (f x e). Qed.

Lemma rank_of_present q p s d :
  db_ok d → zsetScore p (entries q d) = Some s →
  get_user_rank q p d =
  (Return (Z.of_nat (count_before outranks (p, s) (entries q d))), d).
Proof.
  intros Hd Hs%entry_score; [|done].
  destruct (rank_position q p s d Hd Hs) as (r & Hr & _ & Hcount).
  by rewrite Hr, Hcount.
Qed.

Lemma update_accepted q p s v d :
  Double.of_int s = Some v →
  update_score q p s d =
  (Return (), <[leaderboard_key q := zsetAdd v p (entries q d)]> d).
Proof. intros Hv. by rewrite update_score_unfold, Hv. Qed.

End update_facts.

(** X3: [update_score] is idempotent: after any history, repeating a call
    with the same arguments has the same outcome and leaves the store
    exactly as the first call left it. *)
Theorem update_score_is_idempotent
    (calls : list (string * string * Z)) (q p : string) (s : Z) :
  let d := run_updates calls ∅ in
  let d1 := (update_score q p s d).2 in
  update_score q p s d1 = ((update_score q p s d).1, d1).
Proof.
  intros d d1. unfold d1. rewrite (update_score_unfold q p s d).
  destruct (Double.of_int s) as [v|] eqn:Hv; simpl.
  - rewrite (update_accepted q p s v) by done. f_equal.
    unfold entries at 1. rewrite lookup_insert_eq. simpl.
    rewrite zsetAdd_again, insert_insert_eq; [done|].
    by destruct (entries_ok q d (history_ok calls)).
  - by rewrite update_score_unfold, Hv.
Qed.

(** X4: ranks are ordinal: after any history, every rank from 0 to the
    number of participants minus one is held by exactly one participant,
    so two participants never share a rank, whatever their scores. *)
Theorem every_rank_has_exactly_one_holder
    (calls : list (string * string * Z)) (q : string) (j : Z) :
  let d := run_updates calls ∅ in
  (0 ≤ j < Z.of_nat (length (entries q d)))%Z →
  ∃ p, get_user_rank q p d = (Return j, d) ∧
       ∀ p', get_user_rank q p' d = (Return j, d) → p' = p.
Proof.
  intros d Hj. pose proof (history_ok calls) as Hd. fold d in Hd.
  destruct (lookup_lt_is_Some_2 (ranking q d) (Z.to_nat j)) as [[p s] Hpos].
  { rewrite length_ranking. lia. }
  pose proof (rank_of_position q p s d _ Hd Hpos) as Hp.
  rewrite Z2Nat.id in Hp by lia.
  exists p. split; [done|]. intros p' Hp'.
  destruct (zsetScore p' (entries q d)) as [s'|] eqn:Hs'.
  - apply entry_score in Hs'; [|done].
    destruct (rank_position q p' s' d Hd Hs') as (r' & Hr' & Hpos' & _).
    rewrite Hr' in Hp'. simplify_eq. rewrite Nat2Z.id in Hpos.
    congruence.
  - rewrite (rank_of_absent q p' d Hs') in Hp'. simplify_eq. lia.
Qed.

Lemma every_rank_witness :
  ∃ p,
    get_user_rank "q1" p alice_bob_carol = (Return 1%Z, alice_bob_carol) ∧
    ∀ p', get_user_rank "q1" p' alice_bob_carol
            = (Return 1%Z, alice_bob_carol) → p' = p.
Proof.
  apply (every_rank_has_exactly_one_holder
           [("q1", "alice", 50%Z); ("q1", "bob", 80%Z); ("q1", "carol", 80%Z)]
           "q1" 1%Z).
  vm_compute. split; [discriminate|reflexivity].
Defined.

(** X5: an accepted [update_score] adds exactly one participant to the
    quiz when [get_user_rank] answered -1 for it before, and none when it
    answered a rank: the number of participants never shrinks and a
    participant is never stored twice. *)
Theorem update_adds_at_most_one_participant
    (calls : list (string * string * Z)) (q p : string) (s : Z) :
  let d := run_updates calls ∅ in
  let d' := (update_score q p s d).2 in
  (update_score q p s d).1 = Return () →
  ((get_user_rank q p d).1 = Return (-1)%Z ∧
   length (entries q d') = S (length (entries q d))) ∨
  ((get_user_rank q p d).1 ≠ Return (-1)%Z ∧
   length (entries q d') = length (entries q d)).
Proof.
  intros d d' Hret. pose proof (history_ok calls) as Hd. fold d in Hd.
  destruct (entries_ok q d Hd) as [_ Hnd].
  destruct (Double.of_int s) as [v|] eqn:Hv;
    [|by rewrite update_score_unfold, Hv in Hret].
  assert (entries q d' = zsetAdd v p (entries q d)) as ->
    by by apply entries_update_eq.
  rewrite (Permutation_length (zsetAdd_perm v p _ Hnd)).
  pose proof (Permutation_length (zset_split p _ Hnd)) as Hlen.
  destruct (zsetScore p (entries q d)) as [cur|] eqn:Hcur.
  - right. split; [|done]. rewrite (rank_of_present q p cur d) by done.
    simpl. intros [= Heq]. lia.
  - left. split; [by rewrite rank_of_absent|]. simpl. by rewrite Hlen.
Qed.

Lemma update_adds_witness :
  ((get_user_rank "q1" "dave" alice_bob_carol).1 = Return (-1)%Z ∧
   length (entries "q1" (update_score "q1" "dave" 60 alice_bob_carol).2)
     = S (length (entries "q1" alice_bob_carol))) ∨
  ((get_user_rank "q1" "dave" alice_bob_carol).1 ≠ Return (-1)%Z ∧
   length (entries "q1" (update_score "q1" "dave" 60 alice_bob_carol).2)
     = length (entries "q1" alice_bob_carol)).
Proof.
  apply (update_adds_at_most_one_participant
           [("q1", "alice", 50%Z); ("q1", "bob", 80%Z); ("q1", "carol", 80%Z)]
           "q1" "dave" 60%Z).
  vm_compute. reflexivity.
Defined.

(** X6: right after an accepted [update_score q p s], the rank of [p] is
    the number of other participants of the quiz that outrank the stored
    score (a higher score, or the same score and a greater identifier); in
    particular [p] has rank 0 when every other score is lower. *)
Theorem rank_after_update_counts_the_rivals
    (calls : list (string * string * Z)) (q p : string) (s v : Z) :
  Double.of_int s = Some v →
  let d := run_updates calls ∅ in
  let d' := (update_score q p s d).2 in
  get_user_rank q p d' =
    (Return (Z.of_nat (count_before outranks (p, v)
                         (rivals p (entries q d)))), d') ∧
  ((∀ p' s', (p', s') ∈ entries q d → p' ≠ p → (s' < v)%Z) →
   get_user_rank q p d' = (Return 0%Z, d')).
Proof.
  intros Hv d d'. pose proof (history_ok calls) as Hd. fold d in Hd.
  destruct (entries_ok q d Hd) as [_ Hnd].
  assert (db_ok d') as Hd' by by apply update_score_ok.
  assert (entries q d' = zsetAdd v p (entries q d)) as Hentries
    by by apply entries_update_eq.
  assert (get_user_rank q p d' =
          (Return (Z.of_nat (count_before outranks (p, v)
                               (rivals p (entries q d)))), d')) as Hrank.
  { rewrite (rank_of_present q p v d' Hd').
    - rewrite Hentries, (count_before_perm _ _ _ _ (zsetAdd_perm v p _ Hnd)).
      by rewrite count_before_cons, outranks_irrefl.
    - rewrite Hentries. by apply zsetScore_zsetAdd_eq. }
  split; [done|]. intros Hlow. rewrite Hrank.
  unfold count_before. rewrite filter_none; [done|].
  apply Forall_forall. intros [p' s'] Hin. apply list_elem_of_In in Hin.
  apply List.filter_In in Hin as [Hin Hne%negb_true_iff]. simpl in Hne.
  apply list_elem_of_In in Hin.
  assert (s' < v)%Z as Hlt.
  { apply (Hlow p' s' Hin). intros ->. by rewrite String.eqb_refl in Hne. }
  unfold outranks. simpl.
  rewrite (proj2 (Z.ltb_ge v s')), (proj2 (Z.eqb_neq s' v)) by lia. done.
Qed.

Lemma rank_after_update_witness :
  get_user_rank "q1" "alice"
    (update_score "q1" "alice" 90 alice_bob_carol).2
  = (Return 0%Z, (update_score "q1" "alice" 90 alice_bob_carol).2).
Proof.
  apply (rank_after_update_counts_the_rivals
           [("q1", "alice", 50%Z); ("q1", "bob", 80%Z); ("q1", "carol", 80%Z)]
           "q1" "alice" 90%Z 90%Z).
  - vm_compute. reflexivity.
  - intros p' s' Hin Hne. apply list_elem_of_In in Hin. vm_compute in Hin.
    destruct Hin as [H|[H|[H|[]]]]; inversion H; subst;
      [by destruct Hne|reflexivity..].
Defined.

(** X7: an [update_score] for [p] moves the rank of any other participant
    of the quiz by at most one place (and leaves -1 at -1). *)
Theorem other_ranks_move_by_at_most_one
    (calls : list (string * string * Z)) (q p p' : string) (s : Z) :
  p' ≠ p →
  let d := run_updates calls ∅ in
  let d' := (update_score q p s d).2 in
  ∃ r r',
    get_user_rank q p' d = (Return r, d) ∧
    get_user_rank q p' d' = (Return r', d') ∧
    (r - 1 ≤ r' ≤ r + 1)%Z ∧ (r = -1 ↔ r' = -1)%Z.
Proof.
  intros Hne d d'. pose proof (history_ok calls) as Hd. fold d in Hd.
  destruct (entries_ok q d Hd) as [_ Hnd].
  assert (db_ok d') as Hd' by by apply update_score_ok.
  destruct (Double.of_int s) as [v|] eqn:Hv.
  - assert (entries q d' = zsetAdd v p (entries q d)) as Hentries
      by by apply entries_update_eq.
    assert (zsetScore p' (entries q d') = zsetScore p' (entries q d)) as Hsame
      by (by rewrite Hentries, zsetScore_zsetAdd_ne).
    destruct (zsetScore p' (entries q d)) as [s'|] eqn:Hs'.
    + rewrite (rank_of_present q p' s' d), (rank_of_present q p' s' d')
        by done.
      eexists _, _. split; [done|]. split; [done|]. split; [|lia].
      rewrite Hentries, (count_before_perm _ _ _ _ (zsetAdd_perm v p _ Hnd)).
      rewrite (count_before_perm _ _ (entries q d) _ (zset_split p _ Hnd)).
      rewrite count_before_cons.
      destruct (zsetScore p (entries q d)) as [cur|];
        rewrite ?count_before_cons;
        repeat match goal with |- context [if ?b then _ else _] =>
                 destruct b end; lia.
    + rewrite (rank_of_absent q p' d), (rank_of_absent q p' d') by done.
      exists (-1)%Z, (-1)%Z. split; [done|]. split; [done|]. split; [lia|done].
  - assert (d' = d) as -> by (unfold d'; by rewrite update_score_unfold, Hv).
    destruct (zsetScore p' (entries q d)) as [s'|] eqn:Hs'.
    + rewrite (rank_of_present q p' s' d) by done.
      eexists _, _. split; [done|]. split; [done|]. split; [lia|done].
    + rewrite (rank_of_absent q p' d) by done.
      exists (-1)%Z, (-1)%Z. split; [done|]. split; [done|]. split; [lia|done].
Qed.

Lemma other_ranks_witness :
  ∃ r r',
    get_user_rank "q1" "bob" alice_bob_carol = (Return r, alice_bob_carol) ∧
    get_user_rank "q1" "bob" (update_score "q1" "alice" 90 alice_bob_carol).2
      = (Return r', (update_score "q1" "alice" 90 alice_bob_carol).2) ∧
    (r - 1 ≤ r' ≤ r + 1)%Z ∧ (r = -1 ↔ r' = -1)%Z.
Proof.
  apply (other_ranks_move_by_at_most_one
           [("q1", "alice", 50%Z); ("q1", "bob", 80%Z); ("q1", "carol", 80%Z)]
           "q1" "alice" "bob" 90%Z).
  discriminate.
Defined.

(** ** The range queries against each other and against the point queries *)

Section range_facts.

Implicit Types (d : gmap string zset) (zs : zset) (q p : string) (k : Z).

Lemma zsetRevRange_from_zero zs stop :
  ∃ j, zsetRevRange zs 0 stop = take j (reverse zs).
Proof.
  unfold zsetRevRange. change (0 <? 0)%Z with false. cbv iota.
  destruct (_ || _); [by exists 0%nat|].
  eexists. by rewrite drop_0.
Qed.

Lemma top_k_prefix q k d rows :
  (get_top_k_players q k d).1 = Return rows →
  ∃ j, rows = take j (ranking q d).
Proof.
  rewrite get_top_k_players_unfold.
  destruct (is_long (k - 1)); simpl; [|done]. intros [= <-].
  apply zsetRevRange_from_zero.
Qed.

Lemma ranking_members_NoDup q d : db_ok d → NoDup (ranking q d).*1.
Proof.
  intros Hd. destruct (entries_ok q d Hd) as [_ Hnd].
  unfold ranking. by rewrite fmap_reverse, reverse_Permutation.
Qed.

End range_facts.

(** X8: a window whose start is clamped to 0 is a top-k: whenever
    [user_rank - m // 2 <= 0], [get_m_users_around_rank] answers exactly
    as [get_top_k_players] with [k = user_rank + m // 2 + 1], also where
    that [k] is zero or negative and where the call raises. *)
Theorem clamped_window_is_a_top_k
    (d : gmap string zset) (q : string) (r m : Z) :
  (r - m `div` 2 ≤ 0)%Z →
  get_m_users_around_rank q r m d =
  get_top_k_players q (r + m `div` 2 + 1) d.
Proof.
  intros Hlo.
  assert (0 `max` (r - m `div` 2) = 0)%Z as Hstart by lia.
  rewrite get_m_users_around_rank_unfold, get_top_k_players_unfold, Hstart.
  change (is_long 0) with true. simpl.
  by replace (r + m `div` 2 + 1 - 1)%Z with (r + m `div` 2)%Z by lia.
Qed.

Lemma clamped_window_witness :
  get_m_users_around_rank "q1" 1 4 alice_bob_carol =
  get_top_k_players "q1" (1 + 4 `div` 2 + 1) alice_bob_carol.
Proof.
  apply (clamped_window_is_a_top_k alice_bob_carol "q1" 1 4).
  vm_compute. discriminate.
Defined.

(** X9: the rows of [get_top_k_players] agree with the point queries:
    after any history and for every [k] for which the call returns, the
    row at position [i] names the participant whose [get_user_rank] is [i]
    and carries its [get_user_score], and no participant is listed
    twice. *)
Theorem top_k_rows_agree_with_rank_and_score
    (calls : list (string * string * Z)) (q : string) (k : Z)
    (rows : list (string * Z)) :
  let d := run_updates calls ∅ in
  (get_top_k_players q k d).1 = Return rows →
  (∀ (i : nat) p s,
     rows !! i = Some (p, s) →
     get_user_rank q p d = (Return (Z.of_nat i), d) ∧
     get_user_score q p d = (Return s, d)) ∧
  NoDup rows.*1.
Proof.
  intros d Hrows. pose proof (history_ok calls) as Hd. fold d in Hd.
  destruct (top_k_prefix q k d rows Hrows) as [j ->]. split.
  - intros i p s [Hpos _]%lookup_take_Some. split.
    + by apply (rank_of_position q p s).
    + apply score_present; [done|].
      apply elem_of_reverse. by eapply list_elem_of_lookup_2.
  - rewrite fmap_take. eapply sublist_NoDup; [|apply sublist_take].
    by apply ranking_members_NoDup.
Qed.

Lemma top_k_rows_witness :
  (∀ (i : nat) p s,
     [("carol", 80%Z); ("bob", 80%Z)] !! i = Some (p, s) →
     get_user_rank "q1" p alice_bob_carol
       = (Return (Z.of_nat i), alice_bob_carol) ∧
     get_user_score "q1" p alice_bob_carol = (Return s, alice_bob_carol)) ∧
  NoDup [("carol", 80%Z); ("bob", 80%Z)].*1.
Proof.
  apply (top_k_rows_agree_with_rank_and_score
           [("q1", "alice", 50%Z); ("q1", "bob", 80%Z); ("q1", "carol", 80%Z)]
           "q1" 2%Z).
  vm_compute. reflexivity.
Defined.

(** X10: for [-2^63 < k <= 0], [get_top_k_players] does not return the
    empty sequence but the ranking without its last [-k] rows (all of it
    for [k = 0]); it is empty only once [-k] reaches the number of
    participants. *)
Theorem top_k_of_a_non_positive_k
    (d : gmap string zset) (q : string) (k : Z) :
  (- 2 ^ 63 < k ≤ 0)%Z →
  get_top_k_players q k d =
  (Return (take (Z.to_nat (Z.of_nat (length (entries q d)) + k))
             (ranking q d)), d).
Proof.
  intros Hk. rewrite get_top_k_players_unfold.
  rewrite (proj2 (is_long_spec (k - 1))) by lia. f_equal. f_equal.
  unfold zsetRevRange, ranking. cbv zeta.
  change (0 <? 0)%Z with false. cbv iota.
  change (0 <? 0)%Z with false. cbv iota.
  rewrite (proj2 (Z.ltb_lt (k - 1) 0)) by lia.
  remember (Z.of_nat (length (entries q d))) as n eqn:Hn.
  destruct (Z.ltb_spec (n + (k - 1)) 0); simpl.
  { by replace (Z.to_nat (n + k)) with 0%nat by lia. }
  destruct (Z.leb_spec n 0); simpl; [lia|].
  rewrite (proj2 (Z.leb_gt n (n + (k - 1)))) by lia.
  rewrite drop_0. f_equal. lia.
Qed.

Lemma top_k_non_positive_witness :
  get_top_k_players "q1" (-1) alice_bob_carol =
  (Return (take (Z.to_nat (Z.of_nat (length (entries "q1" alice_bob_carol))
                           + -1))
             (ranking "q1" alice_bob_carol)), alice_bob_carol).
Proof.
  apply (top_k_of_a_non_positive_k alice_bob_carol "q1" (-1)).
  vm_compute. split; [reflexivity|discriminate].
Defined.

(** ** Scores of 64 bits *)

Section double_facts.

Lemma round_nat_near (a : Z) :
  (0 ≤ a ≤ 2 ^ 63)%Z → (Z.abs (Double.round_nat a - a) ≤ 512)%Z.
Proof.
  intros Ha. destruct (decide (a = 2 ^ 63)%Z) as [->|Hne]; [by vm_compute|].
  unfold Double.round_nat. destruct (Z.ltb_spec a (2 ^ 53)) as [|Hbig].
  { lia. }
  assert (53 ≤ Z.log2 a)%Z as Hlo by (apply Z.log2_le_pow2; lia).
  assert (Z.log2 a < 63)%Z as Hhi by (apply Z.log2_lt_pow2; lia).
  remember (Z.log2 a - 52)%Z as e eqn:He.
  rewrite Z.shiftr_div_pow2, Z.land_ones, Z.shiftl_mul_pow2 by lia.
  assert (e = 1 ∨ e = 2 ∨ e = 3 ∨ e = 4 ∨ e = 5 ∨
          e = 6 ∨ e = 7 ∨ e = 8 ∨ e = 9 ∨ e = 10)%Z as Hcases by lia.
  clear He Hlo Hhi Hbig Hne Ha.
  destruct Hcases as [->|[->|[->|[->|[->|[->|[->|[->|[->| ->]]]]]]]]];
    match goal with |- context [if ?b then _ else _] => destruct b eqn:Hb end;
    simpl in Hb |- *;
    rewrite ?orb_true_iff, ?orb_false_iff, ?andb_true_iff, ?andb_false_iff,
      ?Z.ltb_lt, ?Z.ltb_ge, ?Z.eqb_eq, ?Z.eqb_neq in Hb;
    Z.div_mod_to_equations; lia.
Qed.

Lemma of_int_near (z : Z) :
  (- 2 ^ 63 ≤ z < 2 ^ 63)%Z →
  ∃ v, Double.of_int z = Some v ∧ (Z.abs (v - z) ≤ 512)%Z.
Proof.
  intros Hz. unfold Double.of_int.
  pose proof (round_nat_near (Z.abs z)) as Hnear.
  assert (2 ^ 64 < 2 ^ 1024)%Z as Hpow by (by apply Z.pow_lt_mono_r).
  change (2 ^ 64)%Z with (2 * 2 ^ 63)%Z in Hpow.
  remember (2 ^ 63)%Z as b eqn:Hb.
  assert (1024 ≤ b)%Z by (subst b; by vm_compute).
  remember (Double.round_nat (Z.abs z)) as w eqn:Hw.
  eexists. rewrite (proj2 (Z.ltb_lt _ _)); [split; [done|]|]; nia.
Qed.

End double_facts.

(** X11: every score that fits a signed 64-bit integer is accepted by
    [update_score], after any history, and [get_user_score] then returns a
    value within 512 of it (the nearest double). *)
Theorem sixty_four_bit_scores_read_back_within_512
    (calls : list (string * string * Z)) (q p : string) (s : Z) :
  (- 2 ^ 63 ≤ s < 2 ^ 63)%Z →
  let d := run_updates calls ∅ in
  let d' := (update_score q p s d).2 in
  (update_score q p s d).1 = Return () ∧
  ∃ v, get_user_score q p d' = (Return v, d') ∧ (Z.abs (v - s) ≤ 512)%Z.
Proof.
  intros Hs d d'. destruct (of_int_near s Hs) as (v & Hv & Hnear).
  split; [by rewrite update_score_unfold, Hv|].
  exists v. split; [|done].
  apply score_after_update; [apply history_ok|done].
Qed.

Lemma sixty_four_bit_scores_witness :
  (update_score "q1" "alice" 9223372036854775807 alice_bob_carol).1
    = Return () ∧
  ∃ v,
    get_user_score "q1" "alice"
      (update_score "q1" "alice" 9223372036854775807 alice_bob_carol).2
    = (Return v,
       (update_score "q1" "alice" 9223372036854775807 alice_bob_carol).2) ∧
    (Z.abs (v - 9223372036854775807) ≤ 512)%Z.
Proof.
  apply (sixty_four_bit_scores_read_back_within_512
           [("q1", "alice", 50%Z); ("q1", "bob", 80%Z); ("q1", "carol", 80%Z)]
           "q1" "alice" 9223372036854775807%Z).
  vm_compute. split; [discriminate|reflexivity].
Defined.

(** ** The order of the calls *)

Section order_facts.

Implicit Types (d : gmap string zset) (zs : zset) (q p : string) (v : Z).

(** A sorted set is determined by the scores of its members. *)
Lemma zset_ext (zs1 zs2 : zset) :
  zset_ok zs1 → zset_ok zs2 →
  (∀ p, zsetScore p zs1 = zsetScore p zs2) → zs1 = zs2.
Proof.
  intros [Hs1 Hnd1] [Hs2 Hnd2] Hscores.
  apply (StronglySorted_unique_strong (λ a b, zslLt a b = true)); try done.
  - intros x1 x2 _ _ H12 H21. apply zslLt_asym in H12. congruence.
  - apply NoDup_Permutation; [by eapply NoDup_fmap_1..|].
    intros [p s]. by rewrite !elem_of_zset_score, Hscores.
Qed.

Lemma zsetAdd_comm v1 v2 p1 p2 zs :
  zset_ok zs → p1 ≠ p2 →
  zsetAdd v2 p2 (zsetAdd v1 p1 zs) = zsetAdd v1 p1 (zsetAdd v2 p2 zs).
Proof.
  intros Hok Hne.
  pose proof (zsetAdd_ok v1 p1 zs Hok) as Hok1.
  pose proof (zsetAdd_ok v2 p2 zs Hok) as Hok2.
  apply zset_ext; [by apply zsetAdd_ok..|]. intros p.
  destruct Hok as [_ Hnd], Hok1 as [_ Hnd1], Hok2 as [_ Hnd2].
  destruct (decide (p = p1)) as [->|Hp1];
    [|destruct (decide (p = p2)) as [->|Hp2]].
  - by rewrite zsetScore_zsetAdd_ne, !zsetScore_zsetAdd_eq.
  - by rewrite zsetScore_zsetAdd_eq, zsetScore_zsetAdd_ne,
      zsetScore_zsetAdd_eq.
  - by rewrite !zsetScore_zsetAdd_ne.
Qed.

Lemma entries_insert_eq q zs d :
  entries q (<[leaderboard_key q := zs]> d) = zs.
Proof. unfold entries. by rewrite lookup_insert_eq. Qed.

Lemma entries_insert_ne q q' zs d :
  q ≠ q' → entries q' (<[leaderboard_key q := zs]> d) = entries q' d.
Proof.
  intros Hne. unfold entries. rewrite lookup_insert_ne; [done|].
  by intros ?%leaderboard_key_inj.
Qed.

Lemma last_write_none q p calls :
  (∀ c, c ∈ calls → ¬ (c.1.1 = q ∧ c.1.2 = p)) →
  last_write q p calls = None.
Proof.
  induction calls as [|c calls IH] using rev_ind; intros Hcalls; [done|].
  unfold last_write. rewrite foldl_snoc. fold (last_write q p calls).
  rewrite decide_False by (apply Hcalls; set_solver).
  apply IH. intros c' Hc'. apply Hcalls. set_solver.
Qed.

End order_facts.

(** X12: the answers do not depend on the order of the calls: two
    histories that leave every participant of a quiz with the same last
    accepted score are answered identically by all four queries on that
    quiz. *)
Theorem answers_depend_only_on_the_last_writes
    (calls1 calls2 : list (string * string * Z)) (q : string) :
  (∀ p, last_write q p calls1 = last_write q p calls2) →
  let d1 := run_updates calls1 ∅ in
  let d2 := run_updates calls2 ∅ in
  (∀ p, (get_user_score q p d1).1 = (get_user_score q p d2).1) ∧
  (∀ p, (get_user_rank q p d1).1 = (get_user_rank q p d2).1) ∧
  (∀ k, (get_top_k_players q k d1).1 = (get_top_k_players q k d2).1) ∧
  (∀ r m, (get_m_users_around_rank q r m d1).1
          = (get_m_users_around_rank q r m d2).1).
Proof.
  intros Hsame d1 d2.
  assert (entries q d1 = entries q d2) as Hentries.
  { apply zset_ext; [apply entries_ok, history_ok..|].
    intros p. unfold d1, d2. by rewrite !score_by_history. }
  split_and!; intros.
  - by rewrite !get_user_score_unfold, Hentries.
  - by rewrite !get_user_rank_unfold, Hentries.
  - rewrite !get_top_k_players_unfold, Hentries. by destruct (is_long _).
  - rewrite !get_m_users_around_rank_unfold, Hentries.
    by destruct (is_long _ && is_long _).
Qed.

Lemma answers_order_witness :
  (∀ p, (get_user_score "q1" p alice_bob_carol).1
        = (get_user_score "q1" p carol_bob_alice).1) ∧
  (∀ p, (get_user_rank "q1" p alice_bob_carol).1
        = (get_user_rank "q1" p carol_bob_alice).1) ∧
  (∀ k, (get_top_k_players "q1" k alice_bob_carol).1
        = (get_top_k_players "q1" k carol_bob_alice).1) ∧
  (∀ r m, (get_m_users_around_rank "q1" r m alice_bob_carol).1
          = (get_m_users_around_rank "q1" r m carol_bob_alice).1).
Proof.
  apply (answers_depend_only_on_the_last_writes
           [("q1", "alice", 50%Z); ("q1", "bob", 80%Z); ("q1", "carol", 80%Z)]
           [("q1", "carol", 80%Z); ("q1", "bob", 80%Z); ("q1", "alice", 50%Z)]
           "q1").
  intros p.
  destruct (decide (p = "alice")) as [->|Ha]; [by vm_compute|].
  destruct (decide (p = "bob")) as [->|Hb]; [by vm_compute|].
  destruct (decide (p = "carol")) as [->|Hc]; [by vm_compute|].
  rewrite !last_write_none; [done|..]; intros c Hc' [_ Hp];
    apply list_elem_of_In in Hc'; simpl in Hc';
    destruct Hc' as [<-|[<-|[<-|[]]]]; simpl in Hp; congruence.
Defined.

(** X13: updates of different entries commute: after any history, two
    [update_score] calls that differ in the quiz or in the participant
    leave the same store in either order. *)
Theorem updates_of_different_entries_commute
    (calls : list (string * string * Z))
    (q1 p1 : string) (s1 : Z) (q2 p2 : string) (s2 : Z) :
  (q1, p1) ≠ (q2, p2) →
  let d := run_updates calls ∅ in
  (update_score q2 p2 s2 (update_score q1 p1 s1 d).2).2 =
  (update_score q1 p1 s1 (update_score q2 p2 s2 d).2).2.
Proof.
  intros Hne d. pose proof (history_ok calls) as Hd. fold d in Hd.
  rewrite (update_score_unfold q1 p1 s1 d), (update_score_unfold q2 p2 s2 d).
  destruct (Double.of_int s1) as [v1|] eqn:Hv1,
           (Double.of_int s2) as [v2|] eqn:Hv2; simpl;
    rewrite ?(update_accepted _ _ _ _ _ Hv1), ?(update_accepted _ _ _ _ _ Hv2),
      ?update_score_unfold, ?Hv1, ?Hv2; simpl; try done.
  destruct (decide (q1 = q2)) as [->|Hq].
  - assert (p1 ≠ p2) as Hp by congruence.
    rewrite !entries_insert_eq, !insert_insert_eq. f_equal.
    apply zsetAdd_comm; [by apply entries_ok|done].
  - assert (leaderboard_key q2 ≠ leaderboard_key q1) as Hk
      by (by intros ?%leaderboard_key_inj).
    rewrite !entries_insert_ne by done.
    by rewrite insert_insert_ne.
Qed.

Lemma updates_commute_witness :
  (update_score "q1" "bob" 10
     (update_score "q1" "alice" 90 alice_bob_carol).2).2 =
  (update_score "q1" "alice" 90
     (update_score "q1" "bob" 10 alice_bob_carol).2).2.
Proof.
  apply (updates_of_different_entries_commute
           [("q1", "alice", 50%Z); ("q1", "bob", 80%Z); ("q1", "carol", 80%Z)]
           "q1" "alice" 90%Z "q1" "bob" 10%Z).
  discriminate.
Defined.


(** ** Ranks fed back into the window, and scores that rise *)

Section standing_facts.

Lemma filter_length_mono {A} (f g : A → bool) (l : list A) :
  Forall (λ x, f x = true → g x = true) l →
  (length (List.filter f l) ≤ length (List.filter g l))%nat.
Proof.
  induction 1 as [|x l Hx Hall IH]; simpl; [done|].
  destruct (f x) eqn:Hf.
  - rewrite (Hx eq_refl). simpl. lia.
  - destruct (g x); simpl; lia.
Qed.

Lemma rival_outranks_mono (p : string) (cur v : Z) (x : string * Z) :
  (cur ≤ v)%Z → outranks x (p, v) = true → outranks x (p, cur) = true.
Proof.
  unfold outranks. simpl. intros Hle.
  rewrite !orb_true_iff, !andb_true_iff, !Z.ltb_lt, !Z.eqb_eq.
  intros [Hlt|[Heq Hid]]; [left; lia|].
  destruct (decide (cur = v)) as [->|]; [by right|left; lia].
Qed.

End standing_facts.

(** X14: feeding the rank of an absent participant back into the window
    returns the whole leaderboard: [get_user_rank] answers -1, and
    [get_m_users_around_rank] around -1 with a width of 0 or 1 asks
    ZREVRANGE for the ranks 0 to -1, which is every row. *)
Theorem window_around_an_absent_participant
    (calls : list (string * string * Z)) (q p : string) (m : Z) :
  last_write q p calls = None → (0 ≤ m ≤ 1)%Z →
  let d := run_updates calls ∅ in
  ∃ r,
    get_user_rank q p d = (Return r, d) ∧
    get_m_users_around_rank q r m d = (Return (ranking q d), d).
Proof.
  intros Hnone Hm d. exists (-1)%Z. split.
  - apply rank_of_absent. unfold d. by rewrite score_by_history.
  - assert (m `div` 2 = 0)%Z as Hhalf by (apply Z.div_small; lia).
    rewrite get_m_users_around_rank_unfold, Hhalf.
    change (0 `max` (-1 - 0))%Z with 0%Z. change (-1 + 0)%Z with (-1)%Z.
    simpl. do 2 f_equal. unfold zsetRevRange, ranking. cbv zeta.
    change (0 <? 0)%Z with false. change (-1 <? 0)%Z with true. cbv iota.
    change (0 <? 0)%Z with false. cbv iota.
    remember (Z.of_nat (length (entries q d))) as n eqn:Hn.
    destruct (Z.ltb_spec (n + -1) 0); simpl.
    { destruct (entries q d); [done|simpl in Hn; lia]. }
    destruct (Z.leb_spec n 0); simpl; [lia|].
    rewrite (proj2 (Z.leb_gt n (n + -1))) by lia.
    rewrite drop_0. apply take_ge. rewrite length_reverse. lia.
Qed.

Lemma window_absent_witness :
  ∃ r,
    get_user_rank "q1" "dave" alice_bob_carol = (Return r, alice_bob_carol) ∧
    get_m_users_around_rank "q1" r 0 alice_bob_carol
      = (Return (ranking "q1" alice_bob_carol), alice_bob_carol).
Proof.
  apply (window_around_an_absent_participant
           [("q1", "alice", 50%Z); ("q1", "bob", 80%Z); ("q1", "carol", 80%Z)]
           "q1" "dave" 0%Z).
  - vm_compute. reflexivity.
  - vm_compute. split; discriminate.
Defined.

(** X15: a score that does not go down never costs a place: if [p] holds
    the score [cur] and [update_score] stores a score [v >= cur] for it,
    the rank of [p] after the update is at most its rank before. *)
Theorem a_higher_score_never_lowers_the_rank
    (calls : list (string * string * Z)) (q p : string) (s cur v : Z) :
  last_write q p calls = Some cur → Double.of_int s = Some v →
  (cur ≤ v)%Z →
  let d := run_updates calls ∅ in
  let d' := (update_score q p s d).2 in
  ∃ r r',
    get_user_rank q p d = (Return r, d) ∧
    get_user_rank q p d' = (Return r', d') ∧
    (0 ≤ r' ≤ r)%Z.
Proof.
  intros Hcur Hv Hle d d'. pose proof (history_ok calls) as Hd. fold d in Hd.
  destruct (entries_ok q d Hd) as [_ Hnd].
  assert (zsetScore p (entries q d) = Some cur) as Hscore
    by (unfold d; by rewrite score_by_history).
  assert (db_ok d') as Hd' by by apply update_score_ok.
  assert (entries q d' = zsetAdd v p (entries q d)) as Hentries
    by by apply entries_update_eq.
  assert (zsetScore p (entries q d') = Some v) as Hscore'
    by (rewrite Hentries; by apply zsetScore_zsetAdd_eq).
  rewrite (rank_of_present q p cur d), (rank_of_present q p v d') by done.
  eexists _, _. split; [done|]. split; [done|]. split; [lia|].
  rewrite Hentries, (count_before_perm _ _ _ _ (zsetAdd_perm v p _ Hnd)).
  rewrite (count_before_perm _ _ (entries q d) _ (zset_split p _ Hnd)).
  rewrite Hscore, !count_before_cons, !outranks_irrefl. simpl.
  apply inj_le, filter_length_mono, Forall_forall. intros x _.
  by apply rival_outranks_mono.
Qed.

Lemma higher_score_witness :
  ∃ r r',
    get_user_rank "q1" "alice" alice_bob_carol
      = (Return r, alice_bob_carol) ∧
    get_user_rank "q1" "alice"
      (update_score "q1" "alice" 80 alice_bob_carol).2
      = (Return r', (update_score "q1" "alice" 80 alice_bob_carol).2) ∧
    (0 ≤ r' ≤ r)%Z.
Proof.
  apply (a_higher_score_never_lowers_the_rank
           [("q1", "alice", 50%Z); ("q1", "bob", 80%Z); ("q1", "carol", 80%Z)]
           "q1" "alice" 80%Z 50%Z 80%Z).
  - vm_compute. reflexivity.
  - vm_compute. reflexivity.
  - vm_compute. discriminate.
Defined.
